(** * Adullam service worker: notification lifecycle handlers

    A shallow embedding of the background script (the service worker of the
    Adullam prayer-chain application) and the properties of its event
    handlers: install, activate, push, notificationclick, sync,
    periodicsync and message.

    The script is a set of event listeners over platform objects (caches,
    clients, the registration, message ports).  Values that cross the
    boundary are JavaScript values; the handlers are written in a small
    state-and-exception monad over a world that records every platform call
    in order; promises are suspended computations of that monad which the
    event loop runs after the listener has returned. *)

From Stdlib Require Import ZArith DecimalString.
From stdpp Require Import gmap strings list fin_maps.

Set Warnings "-register-all".
Local Open Scope string_scope.
Local Open Scope list_scope.

(** ** JavaScript values *)

(** A number is a double: not-a-number, an infinity, or [m * 2^e].  The
    handlers never compute with numbers; they only test them for
    truthiness and pass them on. *)
Inductive number : Type :=
  | NaN
  | Infinity (negative : bool)
  | Finite (m e : Z).

(** The values a push payload (JSON) or a message (structured clone) can
    carry.  [JHost] stands for a platform object whose properties the
    handlers never read (an event, an error). *)
Inductive jsval : Type :=
  | JUndefined
  | JNull
  | JBool (b : bool)
  | JNum (n : number)
  | JStr (s : string)
  | JArr (elems : list jsval)
  | JObj (props : gmap string jsval)
  | JHost (label : string).

(** ToBoolean. *)
Definition truthy (v : jsval) : bool :=
  match v with
  | JUndefined | JNull => false
  | JBool b => b
  | JNum NaN => false
  | JNum (Infinity _) => true
  | JNum (Finite m _) => negb (m =? 0)%Z
  | JStr s => negb (String.eqb s "")
  | JArr _ | JObj _ | JHost _ => true
  end.

(** [a || b] *)
Definition js_or (a b : jsval) : jsval := if truthy a then a else b.

(** [v === 'lit'] for a string literal. *)
Definition is_string (v : jsval) (lit : string) : bool :=
  match v with
  | JStr s => String.eqb s lit
  | _ => false
  end.

(** The property key of an array index or of a character position. *)
Definition index_key (i : nat) : string :=
  NilEmpty.string_of_uint (Nat.to_uint i).

(** Own enumerable properties, the ones an object spread copies and a
    property read finds first.  An array and a string expose their
    elements under index keys (the positions of a string are counted in
    the bytes of this embedding); the other primitives have none. *)
Definition own_props (v : jsval) : gmap string jsval :=
  match v with
  | JObj props => props
  | JArr elems => list_to_map (imap (fun i x => (index_key i, x)) elems)
  | JStr s =>
      list_to_map
        (imap (fun i c => (index_key i, JStr (String c EmptyString)))
              (String.list_ascii_of_string s))
  | _ => ∅
  end.

(** [{...a, ...b}]: the properties of [b] override those of [a]. *)
Definition spread (a : gmap string jsval) (b : jsval) : gmap string jsval :=
  own_props b ∪ a.

(** [o.k] on an object literal of the script. *)
Definition field (o : gmap string jsval) (k : string) : jsval :=
  default JUndefined (o !! k).

(** [v.k] on a value that is neither [undefined] nor [null].  The
    handlers read the names type, payload, title, body, icon, tag, data
    and url only, none of which a built-in prototype defines, so the read
    is a lookup among the own properties. *)
Definition member (v : jsval) (k : string) : jsval := field (own_props v) k.

Definition nullish (v : jsval) : bool :=
  match v with
  | JUndefined | JNull => true
  | _ => false
  end.

(** [v?.k] *)
Definition opt_member (v : jsval) (k : string) : jsval :=
  if nullish v then JUndefined else member v k.

(** [s.includes(sub)] *)
Fixpoint includes (s sub : string) : bool :=
  String.prefix sub s ||
  match s with
  | EmptyString => false
  | String _ rest => includes rest sub
  end.

(** ** Platform objects *)

Record NotificationAction := {
  action_id : string;
  action_title : string;
  action_icon : option string
}.

(** The options object handed to [showNotification]. *)
Record NotificationOptions := {
  body : jsval;
  icon : jsval;
  badge : jsval;
  tag : jsval;
  requireInteraction : jsval;
  data : jsval;
  vibrate : list Z;
  actions : list NotificationAction
}.

(** An entry of [clients.matchAll]: [has_focus] is ['focus' in client]. *)
Record WindowClient := {
  client_id : nat;
  url : string;
  has_focus : bool
}.

(** [event.data] of a push event: [json()] throws when the text does not
    parse ([None]). *)
Record PushMessageData := {
  text : string;
  json : option jsval
}.

Record PushEvent := { push_data : option PushMessageData }.

Record Notification := {
  notification_tag : string;
  notification_data : jsval
}.

Record NotificationEvent := {
  notification : Notification;
  action : string
}.

Record MessageEvent := {
  message_data : jsval;
  ports : list nat
}.

(** Every call the script makes on the platform. *)
Inductive call : Type :=
  | SkipWaiting
  | CachesOpen (name : string)
  | CacheAddAll (cache : string) (urls : list string)
  | CachesKeys
  | CachesDelete (name : string)
  | ClientsClaim
  | ShowNotification (title : jsval) (options : NotificationOptions)
  | NotificationClose (tag : string)
  | ClientsMatchAll (type : string) (includeUncontrolled : bool)
  | ClientFocus (client : WindowClient)
  | ClientNavigate (client : WindowClient) (target : jsval)
  | ClientsOpenWindow (target : jsval)
  | PortPostMessage (port : nat) (message : jsval).

(** What an observer of the worker sees, in order: console output, a call
    being issued, and the platform settling the promise of a call. *)
Inductive effect : Type :=
  | ConsoleLog (message : string) (args : list jsval)
  | ConsoleError (message : string) (args : list jsval)
  | Invoke (c : call)
  | Settle (c : call) (fulfilled : bool).

(** The world: the trace so far and the names of the cache buckets. *)
Record world := {
  trace : list effect;
  buckets : list string
}.

(** What the worker cannot decide: the clock, its own origin, the open
    windows, which optional interfaces exist, and which calls fail (with
    the reason of the rejection). *)
Record platform := {
  now : Z;
  origin : string;
  windows : list WindowClient;
  has_openWindow : bool;
  has_periodicsync : bool;
  rejects : call → option jsval
}.

(** ** The monad of the script *)

(** A statement completes normally or throws; a promise is fulfilled or
    rejected: the same two cases. *)
Inductive completion (A : Type) : Type :=
  | Normal (a : A)
  | Throw (reason : jsval).

Arguments Normal {A} a.
Arguments Throw {A} reason.

Definition JS (A : Type) : Type := world → world * completion A.

(** A promise is the rest of an asynchronous operation: a computation the
    event loop runs once the listener that created it has returned. *)
Definition Promise (A : Type) : Type := JS A.

Definition ret {A} (a : A) : JS A := fun w => (w, Normal a).

Definition bind {A B} (m : JS A) (k : A → JS B) : JS B :=
  fun w =>
    match m w with
    | (w', Normal a) => k a w'
    | (w', Throw e) => (w', Throw e)
    end.

Definition throw {A} (e : jsval) : JS A := fun w => (w, Throw e).

(** [try { body } catch (e) { handler e }] *)
Definition try_catch {A} (body : JS A) (handler : jsval → JS A) : JS A :=
  fun w =>
    match body w with
    | (w', Normal a) => (w', Normal a)
    | (w', Throw e) => handler e w'
    end.

Declare Scope js_scope.
Delimit Scope js_scope with js.
Notation "'let*' x ':=' m 'in' k" := (bind m (fun x => k))
  (at level 10, x name, m at level 100, k at level 200) : js_scope.
Notation "m ';;' k" := (bind m (fun _ => k))
  (at level 100, k at level 200, right associativity) : js_scope.
Local Open Scope js_scope.

Definition emit (e : effect) : JS unit :=
  fun w => ({| trace := trace w ++ [e]; buckets := buckets w |}, Normal tt).

Definition console_log (message : string) (args : list jsval) : JS unit :=
  emit (ConsoleLog message args).

Definition console_error (message : string) (args : list jsval) : JS unit :=
  emit (ConsoleError message args).

Definition get_buckets : JS (list string) :=
  fun w => (w, Normal (buckets w)).

Definition set_buckets (names : list string) : JS unit :=
  fun w => ({| trace := trace w; buckets := names |}, Normal tt).

(** What the cache storage does when a bucket is opened or deleted. *)
Definition open_bucket (name : string) : JS string :=
  let* names := get_buckets in
  (if bool_decide (name ∈ names) then ret tt
   else set_buckets (names ++ [name])) ;;
  ret name.

Definition delete_bucket (name : string) : JS bool :=
  let* names := get_buckets in
  set_buckets (filter (fun n => n ≠ name) names) ;;
  ret (bool_decide (name ∈ names)).

(** [array.map(callback)], the callbacks run in order. *)
Fixpoint array_map {A B} (callback : A → JS B) (array : list A) : JS (list B) :=
  match array with
  | [] => ret []
  | x :: rest =>
      let* y := callback x in
      let* ys := array_map callback rest in
      ret (y :: ys)
  end.

(** *** Promise combinators *)

Definition resolved {A} (a : A) : Promise A := ret a.

(** [p.then(callback)]: the callback runs when [p] is fulfilled and the
    result follows the promise the callback returns. *)
Definition then_ {A B} (p : Promise A) (callback : A → JS (Promise B)) : Promise B :=
  let* a := p in
  let* q := callback a in
  q.

(** [p.catch(callback)] *)
Definition catch_ {A} (p : Promise A) (callback : jsval → JS (Promise A)) : Promise A :=
  try_catch p (fun e => let* q := callback e in q).

(** A promise seen only for its settling (an argument of [waitUntil] or
    of a heterogeneous [Promise.all]). *)
Definition void {A} (p : Promise A) : Promise unit := p ;; ret tt.

(** [Promise.all(ps)]: every promise runs to its end; the result is
    rejected with the first rejection, fulfilled otherwise. *)
Fixpoint promise_all {A} (ps : list (Promise A)) : Promise (list A) :=
  match ps with
  | [] => ret []
  | p :: rest =>
      fun w =>
        let '(w1, r) := p w in
        let '(w2, rs) := promise_all rest w1 in
        (w2, match r, rs with
             | Throw e, _ => Throw e
             | Normal _, Throw e => Throw e
             | Normal a, Normal l => Normal (a :: l)
             end)
  end.

(** [async function]: the body runs at the call (it has no [await]) and
    its completion settles the promise that is returned. *)
Definition async {A} (fn_body : JS A) : JS (Promise A) :=
  fun w => let '(w', r) := fn_body w in (w', Normal (fun w'' => (w'', r))).

(** ** The worker *)

Definition CACHE_NAME : string := "adullam-prayer-v1".
Definition NOTIFICATION_ICON : string := "/vite.svg".

Section Worker.

Variable P : platform.

(** *** Platform interface *)

(** The promise of a platform call: rejected when the platform says so,
    otherwise the operation takes effect and yields its result. *)
Definition pending {A} (c : call) (operation : JS A) : Promise A :=
  match rejects P c with
  | Some e => emit (Settle c false) ;; throw e
  | None => emit (Settle c true) ;; operation
  end.

Definition request {A} (c : call) (operation : JS A) : JS (Promise A) :=
  emit (Invoke c) ;; ret (pending c operation).

Definition skipWaiting : JS (Promise unit) := request SkipWaiting (ret tt).

(** [caches.open(name)] creates the bucket when it does not exist. *)
Definition caches_open (name : string) : JS (Promise string) :=
  request (CachesOpen name) (open_bucket name).

Definition cache_addAll (cache : string) (urls : list string) : JS (Promise unit) :=
  request (CacheAddAll cache urls) (ret tt).

Definition caches_keys : JS (Promise (list string)) :=
  request CachesKeys get_buckets.

(** [caches.delete(name)] is fulfilled with whether the bucket existed. *)
Definition caches_delete (name : string) : JS (Promise bool) :=
  request (CachesDelete name) (delete_bucket name).

Definition clients_claim : JS (Promise unit) := request ClientsClaim (ret tt).

Definition showNotification (title : jsval) (options : NotificationOptions)
  : JS (Promise unit) :=
  request (ShowNotification title options) (ret tt).

Definition notification_close (n : Notification) : JS unit :=
  emit (Invoke (NotificationClose (notification_tag n))).

Definition clients_matchAll (type : string) (includeUncontrolled : bool)
  : JS (Promise (list WindowClient)) :=
  request (ClientsMatchAll type includeUncontrolled) (ret (windows P)).

Definition client_focus (client : WindowClient) : JS (Promise WindowClient) :=
  request (ClientFocus client) (ret client).

Definition client_navigate (client : WindowClient) (target : jsval)
  : JS (Promise WindowClient) :=
  request (ClientNavigate client target) (ret client).

Definition clients_openWindow (target : jsval) : JS (Promise unit) :=
  request (ClientsOpenWindow target) (ret tt).

Definition port_postMessage (port : nat) (message : jsval) : JS unit :=
  emit (Invoke (PortPostMessage port message)).

(** *** Install: cache resources and activate immediately *)

Definition on_install : JS (option (Promise unit)) :=
  console_log "🔧 Service Worker installing..." [] ;;
  skipWaiting ;;
  let* opened := caches_open CACHE_NAME in
  ret (Some
    (then_ opened (fun cache =>
       let* added := cache_addAll cache ["/"; "/vite.svg"] in
       ret (catch_ added (fun error =>
              console_log "Cache addAll failed (this is okay):" [error] ;;
              ret (resolved tt)))))).

(** *** Activate: clean up old caches and claim clients *)

Definition on_activate : JS (option (Promise unit)) :=
  console_log "✅ Service Worker activating..." [] ;;
  let* keys := caches_keys in
  let cleanup :=
    then_ keys (fun cacheNames =>
      let* deletions :=
        array_map
          (fun name =>
             console_log "🗑️ Deleting old cache:" [JStr name] ;;
             caches_delete name)
          (filter (fun name => name ≠ CACHE_NAME) cacheNames) in
      ret (promise_all deletions)) in
  let* claim := clients_claim in
  console_log "✅ Service Worker activated and ready for notifications!" [] ;;
  ret (Some (void (promise_all [void cleanup; claim]))).

(** *** Push *)

Definition standard_actions : list NotificationAction :=
  [ {| action_id := "open"; action_title := "Open App";
       action_icon := Some "/vite.svg" |};
    {| action_id := "dismiss"; action_title := "Dismiss";
       action_icon := None |} ].

Definition timestamp : jsval := JNum (Finite (now P) 0).

Definition default_data : jsval :=
  JObj {[ "url" := JStr "/"; "timestamp" := timestamp ]}.

Definition default_notificationData : gmap string jsval :=
  {[ "title" := JStr "Prayer Reminder";
     "body" := JStr "Time for your daily prayer session!";
     "icon" := JStr NOTIFICATION_ICON;
     "badge" := JStr NOTIFICATION_ICON;
     "tag" := JStr "prayer-notification";
     "requireInteraction" := JBool false;
     "data" := default_data ]}.

(** [event.data.json()] *)
Definition push_json (d : PushMessageData) : JS jsval :=
  match json d with
  | Some v => ret v
  | None => throw (JHost "SyntaxError")
  end.

Definition on_push (event : PushEvent) : JS (option (Promise unit)) :=
  console_log "📬 Push notification received:" [JHost "PushEvent"] ;;
  let notificationData := default_notificationData in
  let* notificationData :=
    match push_data event with
    | Some event_data =>
        try_catch
          (let* data := push_json event_data in
           ret (spread notificationData data))
          (fun e =>
             ret (<["body" := js_or (JStr (text event_data))
                                    (field notificationData "body")]>
                    notificationData))
    | None => ret notificationData
    end in
  let* shown :=
    showNotification (field notificationData "title")
      {| body := field notificationData "body";
         icon := field notificationData "icon";
         badge := field notificationData "badge";
         tag := field notificationData "tag";
         requireInteraction := field notificationData "requireInteraction";
         data := field notificationData "data";
         vibrate := [200; 100; 200]%Z;
         actions := standard_actions |} in
  ret (Some shown).

(** *** Notification click *)

(** The loop over [clientList] and the statement after it. *)
Fixpoint focus_or_open (event : NotificationEvent) (clientList : list WindowClient)
  : JS (Promise unit) :=
  match clientList with
  | client :: rest =>
      if includes (url client) (origin P) && has_focus client then
        let* focused := client_focus client in
        ret (then_ focused (fun _ =>
          let target := opt_member (notification_data (notification event)) "url" in
          if truthy target then
            let* navigated := client_navigate client target in
            ret (void navigated)
          else ret (resolved tt)))
      else focus_or_open event rest
  | [] =>
      if has_openWindow P then
        let urlToOpen :=
          js_or (opt_member (notification_data (notification event)) "url")
                (JStr "/") in
        clients_openWindow urlToOpen
      else ret (resolved tt)
  end.

Definition on_notificationclick (event : NotificationEvent)
  : JS (option (Promise unit)) :=
  console_log "👆 Notification clicked:"
    [JStr (notification_tag (notification event))] ;;
  notification_close (notification event) ;;
  if String.eqb (action event) "dismiss" then ret None
  else
    let* matched := clients_matchAll "window" true in
    ret (Some (then_ matched (fun clientList => focus_or_open event clientList))).

Definition on_notificationclose (event : NotificationEvent)
  : JS (option (Promise unit)) :=
  console_log "❌ Notification closed:"
    [JStr (notification_tag (notification event))] ;;
  ret None.

(** *** Background sync *)

(** The body of the routine is one [try]/[catch] statement: the guarded
    block runs, and what it throws is caught and logged.  The block of
    the source holds one [console.log] (the polling of a server is left
    as a comment there). *)
Definition check_in_background (guarded : JS unit) : JS (Promise unit) :=
  async
    (try_catch
       guarded
       (fun error =>
          console_error "❌ Error checking notifications in background:" [error])).

Definition checkNotificationsInBackground : JS (Promise unit) :=
  check_in_background
    (console_log "🔍 Checking for notifications in background..." []).


Definition on_sync (event_tag : string) : JS (option (Promise unit)) :=
  console_log "🔄 Background sync triggered:" [JStr event_tag] ;;
  if String.eqb event_tag "check-notifications" then
    let* checked := checkNotificationsInBackground in
    ret (Some checked)
  else ret None.

Definition on_periodicsync (event_tag : string) : JS (option (Promise unit)) :=
  console_log "⏰ Periodic sync triggered:" [JStr event_tag] ;;
  if String.eqb event_tag "check-prayer-notifications" then
    let* checked := checkNotificationsInBackground in
    ret (Some checked)
  else ret None.

(** *** Messages from the main app *)

(** [event.data && event.data.type === kind] *)
Definition message_is (event : MessageEvent) (kind : string) : bool :=
  truthy (message_data event) && is_string (member (message_data event) "type") kind.

(** The binding [const { ... } = v] throws on [undefined] and [null]. *)
Definition require_object_coercible (v : jsval) : JS unit :=
  if nullish v then throw (JHost "TypeError") else ret tt.

Definition success_reply : jsval := JObj {[ "success" := JBool true ]}.

Definition on_message (event : MessageEvent) : JS (option (Promise unit)) :=
  console_log "📨 Service Worker received message:" [message_data event] ;;
  let* extended :=
    if message_is event "SHOW_NOTIFICATION" then
      let payload := member (message_data event) "payload" in
      require_object_coercible payload ;;
      let title := member payload "title" in
      let body := member payload "body" in
      let icon := member payload "icon" in
      let tag := member payload "tag" in
      let data := member payload "data" in
      let* shown :=
        showNotification title
          {| body := body;
             icon := js_or icon (JStr NOTIFICATION_ICON);
             badge := JStr NOTIFICATION_ICON;
             tag := js_or tag (JStr "prayer-notification");
             requireInteraction := JBool false;
             data := js_or data default_data;
             vibrate := [200; 100; 200]%Z;
             actions := standard_actions |} in
      match ports event with
      | port :: _ => port_postMessage port success_reply
      | [] => ret tt
      end ;;
      ret (Some shown)
    else ret None in
  (if message_is event "SKIP_WAITING" then skipWaiting ;; ret tt else ret tt) ;;
  (if message_is event "CLIENTS_CLAIM" then clients_claim ;; ret tt else ret tt) ;;
  ret extended.

(** *** Errors *)

Definition on_error (error : jsval) : JS (option (Promise unit)) :=
  console_error "❌ Service Worker error:" [error] ;;
  ret None.

Definition on_unhandledrejection (reason : jsval) : JS (option (Promise unit)) :=
  console_error "❌ Service Worker unhandled rejection:" [reason] ;;
  ret None.

(** *** Registration and dispatch *)

Inductive worker_event : Type :=
  | Install
  | Activate
  | Push (event : PushEvent)
  | NotificationClick (event : NotificationEvent)
  | NotificationClosed (event : NotificationEvent)
  | Sync (event_tag : string)
  | PeriodicSync (event_tag : string)
  | Message (event : MessageEvent)
  | Error (error : jsval)
  | UnhandledRejection (reason : jsval).

(** The listener the script has registered for an event, if any: the one
    for periodicsync is added only when the registration has it. *)
Definition listener (e : worker_event) : option (JS (option (Promise unit))) :=
  match e with
  | Install => Some on_install
  | Activate => Some on_activate
  | Push event => Some (on_push event)
  | NotificationClick event => Some (on_notificationclick event)
  | NotificationClosed event => Some (on_notificationclose event)
  | Sync event_tag => Some (on_sync event_tag)
  | PeriodicSync event_tag =>
      if has_periodicsync P then Some (on_periodicsync event_tag) else None
  | Message event => Some (on_message event)
  | Error error => Some (on_error error)
  | UnhandledRejection reason => Some (on_unhandledrejection reason)
  end.

(** How the event ended for the platform: the listener threw, it returned
    without extending the event, or it handed a promise to [waitUntil],
    which then settled. *)
Inductive lifetime : Type :=
  | ListenerThrew (e : jsval)
  | NotExtended
  | Extended (settled : completion unit).

(** One turn of the event loop: the listener runs to its end, then the
    promise it passed to [event.waitUntil] runs. *)
Definition dispatch (e : worker_event) (w : world) : world * lifetime :=
  match listener e with
  | None => (w, NotExtended)
  | Some handler =>
      match handler w with
      | (w1, Throw err) => (w1, ListenerThrew err)
      | (w1, Normal None) => (w1, NotExtended)
      | (w1, Normal (Some extension)) =>
          let '(w2, settled) := extension w1 in (w2, Extended settled)
      end
  end.

End Worker.

(** ** Reading a trace *)

Definition calls (t : list effect) : list call :=
  omap (fun e => match e with Invoke c => Some c | _ => None end) t.

(** The world after the effects [es] and no change of the buckets. *)
Definition after (w : world) (es : list effect) : world :=
  {| trace := trace w ++ es; buckets := buckets w |}.

Definition fulfils (P : platform) (c : call) : bool :=
  match rejects P c with
  | None => true
  | Some _ => false
  end.

Definition empty_world : world := {| trace := []; buckets := [] |}.

(** *** Platforms and events used as examples *)

(** Every call succeeds; one window of the application is open. *)
Definition calm_platform : platform :=
  {| now := 1700000000000;
     origin := "https://adullam.example";
     windows := [ {| client_id := 1;
                     url := "https://adullam.example/home";
                     has_focus := true |} ];
     has_openWindow := true;
     has_periodicsync := true;
     rejects := fun _ => None |}.

(** The network is down: [cache.addAll] is rejected. *)
Definition offline_platform : platform :=
  {| now := 1700000000000;
     origin := "https://adullam.example";
     windows := [];
     has_openWindow := true;
     has_periodicsync := true;
     rejects := fun c =>
       match c with
       | CacheAddAll _ _ => Some (JHost "TypeError: Failed to fetch")
       | _ => None
       end |}.

Definition click (target : jsval) (action_id : string) : NotificationEvent :=
  {| notification :=
       {| notification_tag := "prayer-notification";
          notification_data := JObj {[ "url" := target ]} |};
     action := action_id |}.

(** *** The documented notification request *)

(** The default request as the specification documents it. *)
Definition documented_default (P : platform) (k : string) : jsval :=
  if String.eqb k "title" then JStr "Prayer Reminder"
  else if String.eqb k "body" then JStr "Time for your daily prayer session!"
  else if String.eqb k "icon" then JStr "/vite.svg"
  else if String.eqb k "badge" then JStr "/vite.svg"
  else if String.eqb k "tag" then JStr "prayer-notification"
  else if String.eqb k "requireInteraction" then JBool false
  else if String.eqb k "data" then
    JObj {[ "url" := JStr "/"; "timestamp" := JNum (Finite (now P) 0) ]}
  else JUndefined.

(** A default overridden by the field of the payload, when it has one
    (top level only: a field of the payload replaces the default whole). *)
Definition overridden (P : platform) (payload : jsval) (k : string) : jsval :=
  match own_props payload !! k with
  | Some v => v
  | None => documented_default P k
  end.

(** The names the push listener reads off the merged request. *)
Definition notification_fields : list string :=
  ["title"; "body"; "icon"; "badge"; "tag"; "requireInteraction"; "data"].

Definition json_push (raw : string) (payload : jsval) : PushEvent :=
  {| push_data := Some {| text := raw; json := Some payload |} |}.

Definition text_push (raw : string) : PushEvent :=
  {| push_data := Some {| text := raw; json := None |} |}.

(** The body shown when the payload is absent or is not JSON: its raw
    text, or the default body when there is no text. *)
Definition fallback_body (event : PushEvent) : jsval :=
  match push_data event with
  | Some event_data =>
      if String.eqb (text event_data) ""
      then JStr "Time for your daily prayer session!"
      else JStr (text event_data)
  | None => JStr "Time for your daily prayer session!"
  end.

(** A payload that sets the title and the data and nothing else. *)
Definition evening_payload : jsval :=
  JObj {[ "title" := JStr "Evening prayer";
          "data" := JObj {[ "url" := JStr "/sessions/5" ]} ]}.

(** *** Messages *)

(** [{type: 'SHOW_NOTIFICATION', payload}] with its reply ports. *)
Definition show_message (payload : jsval) (reply_ports : list nat) : MessageEvent :=
  {| message_data :=
       JObj {[ "type" := JStr "SHOW_NOTIFICATION"; "payload" := payload ]};
     ports := reply_ports |}.

(** [{type: 'SHOW_NOTIFICATION'}], the payload left out. *)
Definition bare_show_message (reply_ports : list nat) : MessageEvent :=
  {| message_data := JObj {[ "type" := JStr "SHOW_NOTIFICATION" ]};
     ports := reply_ports |}.

(** The default-filling policy of the push path, read on a message: the
    notification shown has every field of the payload, and the documented
    default for each field the payload lacks. *)
Definition message_fills_like_push (P : platform) (w : world) (event : MessageEvent)
  : Prop :=
  let payload := member (message_data event) "payload" in
  ∃ options,
    ShowNotification (overridden P payload "title") options
      ∈ calls (trace (dispatch P (Message event) w).1) ∧
    body options = overridden P payload "body" ∧
    icon options = overridden P payload "icon" ∧
    badge options = overridden P payload "badge" ∧
    tag options = overridden P payload "tag" ∧
    requireInteraction options = overridden P payload "requireInteraction" ∧
    data options = overridden P payload "data".

(** In the trace [t], one reply goes to [port], and the show operation
    has been fulfilled before it is posted. *)
Definition replies_once_show_resolved (t : list effect) (port : nat) : Prop :=
  ∃ before later title options,
    t = before ++ Invoke (PortPostMessage port success_reply) :: later ∧
    Settle (ShowNotification title options) true ∈ before ∧
    ∀ message, Invoke (PortPostMessage port message) ∉ before ++ later.

(** *** Notification click *)

(** The test of the click listener on an open window: its URL contains
    the origin of the worker, and it can be focused. *)
Definition is_app_window (P : platform) (client : WindowClient) : bool :=
  includes (url client) (origin P) && has_focus client.

(** [event.notification.data?.url] *)
Definition click_target (event : NotificationEvent) : jsval :=
  opt_member (notification_data (notification event)) "url".

(** *** Activation *)

(** Two buckets, one of an older version. *)
Definition two_versions : world :=
  {| trace := []; buckets := ["adullam-prayer-v0"; "adullam-prayer-v1"] |}.

(** *** Further examples *)

(** A control message: [{type: kind}]. *)
Definition control_message (kind : string) (reply_ports : list nat) : MessageEvent :=
  {| message_data := JObj {[ "type" := JStr kind ]}; ports := reply_ports |}.

(** A platform without [clients.openWindow] and without open windows. *)
Definition bare_platform : platform :=
  {| now := 1700000000000;
     origin := "https://adullam.example";
     windows := [];
     has_openWindow := false;
     has_periodicsync := false;
     rejects := fun _ => None |}.

(** The calls on windows and on the cache storage are rejected. *)
Definition failing_platform : platform :=
  {| now := 1700000000000;
     origin := "https://adullam.example";
     windows := [ {| client_id := 1;
                     url := "https://adullam.example/home";
                     has_focus := true |} ];
     has_openWindow := true;
     has_periodicsync := true;
     rejects := fun c =>
       match c with
       | ClientFocus _ => Some (JHost "InvalidAccessError")
       | ClientsMatchAll _ _ => None
       | CachesOpen _ => Some (JHost "QuotaExceededError")
       | CachesKeys => Some (JHost "SecurityError")
       | _ => None
       end |}.

(** [clients.matchAll] itself is rejected. *)
Definition blind_platform : platform :=
  {| now := 1700000000000;
     origin := "https://adullam.example";
     windows := [ {| client_id := 1;
                     url := "https://adullam.example/home";
                     has_focus := true |} ];
     has_openWindow := true;
     has_periodicsync := true;
     rejects := fun c =>
       match c with
       | ClientsMatchAll _ _ => Some (JHost "AbortError")
       | _ => None
       end |}.

(** The deletion of one old bucket is rejected, the rest succeeds. *)
Definition sticky_platform : platform :=
  {| now := 1700000000000;
     origin := "https://adullam.example";
     windows := [];
     has_openWindow := true;
     has_periodicsync := true;
     rejects := fun c =>
       match c with
       | CachesDelete name =>
           if String.eqb name "adullam-prayer-v0"
           then Some (JHost "NotFoundError")
           else None
       | _ => None
       end |}.

(** Three buckets: two old ones and the current one. *)
Definition three_versions : world :=
  {| trace := [];
     buckets := ["adullam-prayer-v0"; "adullam-prayer-beta"; "adullam-prayer-v1"] |}.

(** A guarded block that logs and then fails, as a poll of the server
    would when the network is down. *)
Definition failing_poll : JS unit :=
  console_log "🔍 Checking for notifications in background..." [] ;;
  throw (JHost "TypeError: Failed to fetch").

(** *** Windows by their URL *)

(** The URL of the window is the origin of the worker followed by a
    path: the window shows a page of that origin. *)
Definition shares_origin (P : platform) (client : WindowClient) : Prop :=
  ∃ path, url client = String.append (origin P) path.

(** The text of the origin occurs somewhere in the URL of the window. *)
Definition mentions_origin (P : platform) (client : WindowClient) : Prop :=
  ∃ pre post,
    url client = String.append pre (String.append (origin P) post).

(** A blank window of the application listed before one of its pages. *)
Definition blank_then_home : platform :=
  {| now := 1700000000000;
     origin := "https://adullam.example";
     windows := [ {| client_id := 1; url := "about:blank"; has_focus := true |};
                  {| client_id := 2;
                     url := "https://adullam.example/home";
                     has_focus := true |} ];
     has_openWindow := true;
     has_periodicsync := true;
     rejects := fun _ => None |}.

(** *** Install *)

(** The install is not blocked: the promise given to [waitUntil] is
    fulfilled. *)
Definition install_completes (P : platform) (w : world) : Prop :=
  (dispatch P Install w).2 = Extended (Normal tt).

(** ** Basic facts *)

Lemma calls_app t1 t2 : calls (t1 ++ t2) = calls t1 ++ calls t2.
Proof. unfold calls. apply omap_app. Qed.

Lemma after_after w es1 es2 : after (after w es1) es2 = after w (es1 ++ es2).
Proof. unfold after; cbn. by rewrite <- app_assoc. Qed.

Lemma emit_after e w : emit e w = (after w [e], Normal tt).
Proof. reflexivity. Qed.

Lemma bind_normal {A B} (m : JS A) (k : A → JS B) w w1 a :
  m w = (w1, Normal a) → bind m k w = k a w1.
Proof. unfold bind. by intros ->. Qed.

Lemma eqb_neq_false (s lit : string) : s ≠ lit → String.eqb s lit = false.
Proof. intros. by apply String.eqb_neq. Qed.

(** Bring the trace of a computed world to the form [trace w ++ es]. *)
Ltac tidy_trace := cbn; unfold after; cbn; rewrite <- ?app_assoc; cbn.

(** ** Notification click: the dismiss action *)

(** C7: a click whose action is "dismiss" logs, closes the notification
    and does nothing else: no focus, no navigate, no window opened, no
    work registered with the event. *)
Theorem dismiss_only_closes P w event :
  action event = "dismiss" →
  dispatch P (NotificationClick event) w =
    (after w [ConsoleLog "👆 Notification clicked:"
                [JStr (notification_tag (notification event))];
              Invoke (NotificationClose (notification_tag (notification event)))],
     NotExtended).
Proof.
  intros Hdismiss.
  unfold dispatch, listener, on_notificationclick, bind; cbn.
  rewrite Hdismiss. by tidy_trace.
Qed.

Lemma dismiss_only_closes_witness :
  calls (trace (dispatch calm_platform
                  (NotificationClick (click (JStr "/sessions/5") "dismiss"))
                  empty_world).1)
  = [NotificationClose "prayer-notification"].
Proof.
  rewrite (dismiss_only_closes calm_platform empty_world
             (click (JStr "/sessions/5") "dismiss")); reflexivity.
Defined.

(** ** Background sync *)

(** Whatever the guarded block does, the [try] statement of the
    background check completes normally: a throw is caught and logged. *)
Lemma try_catch_logged (guarded : JS unit) (w : world) :
  ∃ w',
    try_catch guarded
      (fun error =>
         console_error "❌ Error checking notifications in background:" [error]) w
    = (w', Normal tt) ∧
    (∀ w1 e, guarded w = (w1, Throw e) →
       w' = after w1 [ConsoleError "❌ Error checking notifications in background:" [e]]).
Proof.
  unfold try_catch.
  destruct (guarded w) as [w1 [[]|e]] eqn:Hrun.
  - exists w1. split; [done | intros ? ? [=]].
  - eexists. split; [done |]. by intros ? ? [= <- <-].
Qed.

(** The background check logs one line, does not throw, and the promise
    it returns is fulfilled. *)
Lemma checkNotificationsInBackground_runs w :
  checkNotificationsInBackground w =
    (after w [ConsoleLog "🔍 Checking for notifications in background..." []],
     Normal (fun w0 => (w0, Normal tt))).
Proof. reflexivity. Qed.

(** C10: a sync event with another tag than 'check-notifications', and a
    periodicsync event with another tag than 'check-prayer-notifications',
    only log the trigger: nothing is handed to [waitUntil] and the
    background check does not run.  With exactly those tags the check
    runs, and it never throws: the event is extended by a promise that is
    fulfilled.  The routine is its [try]/[catch] around the guarded
    block, and that statement lets nothing out: whatever the block
    throws is caught and logged with [console.error], the call returns
    normally and the promise is fulfilled. *)
Theorem background_check_only_for_its_tags P w event_tag :
  (event_tag ≠ "check-notifications" →
   dispatch P (Sync event_tag) w =
     (after w [ConsoleLog "🔄 Background sync triggered:" [JStr event_tag]],
      NotExtended)) ∧
  (event_tag ≠ "check-prayer-notifications" →
   dispatch P (PeriodicSync event_tag) w =
     (if has_periodicsync P
      then after w [ConsoleLog "⏰ Periodic sync triggered:" [JStr event_tag]]
      else w,
      NotExtended)) ∧
  dispatch P (Sync "check-notifications") w =
    (after w [ConsoleLog "🔄 Background sync triggered:" [JStr "check-notifications"];
              ConsoleLog "🔍 Checking for notifications in background..." []],
     Extended (Normal tt)) ∧
  (has_periodicsync P = true →
   dispatch P (PeriodicSync "check-prayer-notifications") w =
     (after w [ConsoleLog "⏰ Periodic sync triggered:"
                 [JStr "check-prayer-notifications"];
               ConsoleLog "🔍 Checking for notifications in background..." []],
      Extended (Normal tt))) ∧
  (∃ settled,
     checkNotificationsInBackground w =
       (after w [ConsoleLog "🔍 Checking for notifications in background..." []],
        Normal settled) ∧
     ∀ w0, settled w0 = (w0, Normal tt)) ∧
  checkNotificationsInBackground =
    check_in_background
      (console_log "🔍 Checking for notifications in background..." []) ∧
  (∀ guarded : JS unit,
     ∃ w1 settled,
       check_in_background guarded w = (w1, Normal settled) ∧
       (∀ w0, settled w0 = (w0, Normal tt)) ∧
       (∀ w' e, guarded w = (w', Throw e) →
          w1 = after w' [ConsoleError "❌ Error checking notifications in background:"
                           [e]]) ∧
       (∀ w', guarded w = (w', Normal tt) → w1 = w')).
Proof.
  split_and!.
  - intros Htag. unfold dispatch, listener, on_sync, bind; cbn.
    by rewrite (eqb_neq_false _ _ Htag).
  - intros Htag. unfold dispatch, listener.
    destruct (has_periodicsync P); [| done].
    unfold on_periodicsync, bind; cbn.
    by rewrite (eqb_neq_false _ _ Htag).
  - unfold dispatch, listener, on_sync, bind; cbn. by tidy_trace.
  - intros Hsupported. unfold dispatch, listener. rewrite Hsupported.
    unfold on_periodicsync, bind; cbn. by tidy_trace.
  - eexists. split; [apply checkNotificationsInBackground_runs | done].
  - reflexivity.
  - intros guarded. unfold check_in_background, async.
    destruct (try_catch_logged guarded w) as (w1 & Hcaught & Hlogged).
    rewrite Hcaught. exists w1, (fun w0 => (w0, Normal tt)).
    split_and!; [done | done | exact Hlogged |].
    intros w' Hnormal. unfold try_catch in Hcaught. rewrite Hnormal in Hcaught.
    by injection Hcaught.
Qed.

Lemma background_check_only_for_its_tags_witness :
  dispatch calm_platform (Sync "sync-prayers") empty_world =
    (after empty_world
       [ConsoleLog "🔄 Background sync triggered:" [JStr "sync-prayers"]],
     NotExtended) ∧
  dispatch calm_platform (PeriodicSync "sync-prayers") empty_world =
    (after empty_world
       [ConsoleLog "⏰ Periodic sync triggered:" [JStr "sync-prayers"]],
     NotExtended) ∧
  dispatch calm_platform (PeriodicSync "check-prayer-notifications") empty_world =
    (after empty_world
       [ConsoleLog "⏰ Periodic sync triggered:" [JStr "check-prayer-notifications"];
        ConsoleLog "🔍 Checking for notifications in background..." []],
     Extended (Normal tt)) ∧
  ∃ settled,
    check_in_background failing_poll empty_world =
      (after empty_world
         [ConsoleLog "🔍 Checking for notifications in background..." [];
          ConsoleError "❌ Error checking notifications in background:"
            [JHost "TypeError: Failed to fetch"]],
       Normal settled) ∧
    ∀ w0, settled w0 = (w0, Normal tt).
Proof.
  destruct (background_check_only_for_its_tags calm_platform empty_world
              "sync-prayers") as (Hsync & Hperiodic & _ & Hrun & _ & _ & Hcatch).
  split_and!.
  - apply Hsync. discriminate.
  - apply Hperiodic. discriminate.
  - apply Hrun. reflexivity.
  - destruct (Hcatch failing_poll) as (w1 & settled & Hrun' & Hsettled & Hlogged & _).
    exists settled. split; [| exact Hsettled].
    rewrite Hrun'. f_equal.
    exact (Hlogged _ _ eq_refl).
Defined.

(** ** Install *)

(** On every platform, also one where the bucket cannot be opened, the
    first call of the install listener is [skipWaiting]. *)
Lemma install_skips_waiting_first P w :
  ∃ rest, calls (trace (dispatch P Install w).1)
          = calls (trace w) ++ SkipWaiting :: rest.
Proof.
  unfold dispatch, listener, on_install, then_, catch_, try_catch, bind; cbn.
  unfold pending at 1.
  destruct (rejects P (CachesOpen CACHE_NAME)); cbn.
  - eexists. rewrite <- !app_assoc, calls_app. reflexivity.
  - unfold open_bucket, bind; cbn.
    destruct (bool_decide (CACHE_NAME ∈ buckets w)); cbn;
      unfold pending;
      destruct (rejects P (CacheAddAll CACHE_NAME ["/"; "/vite.svg"])); cbn;
      eexists; rewrite <- !app_assoc, calls_app; reflexivity.
Qed.

(** With the bucket open, the install listener runs to the end whatever
    [cache.addAll] does: a rejection is caught and logged. *)
Lemma install_with_open_bucket P w :
  rejects P (CachesOpen CACHE_NAME) = None →
  dispatch P Install w =
    ({| trace :=
          trace w ++
          [ConsoleLog "🔧 Service Worker installing..." [];
           Invoke SkipWaiting;
           Invoke (CachesOpen CACHE_NAME);
           Settle (CachesOpen CACHE_NAME) true;
           Invoke (CacheAddAll CACHE_NAME ["/"; "/vite.svg"])] ++
          match rejects P (CacheAddAll CACHE_NAME ["/"; "/vite.svg"]) with
          | Some error =>
              [Settle (CacheAddAll CACHE_NAME ["/"; "/vite.svg"]) false;
               ConsoleLog "Cache addAll failed (this is okay):" [error]]
          | None => [Settle (CacheAddAll CACHE_NAME ["/"; "/vite.svg"]) true]
          end;
        buckets :=
          if bool_decide (CACHE_NAME ∈ buckets w) then buckets w
          else buckets w ++ [CACHE_NAME] |},
     Extended (Normal tt)).
Proof.
  intros Hopen.
  unfold dispatch, listener, on_install, then_, catch_, try_catch, bind; cbn.
  unfold pending at 1. rewrite Hopen.
  unfold open_bucket, bind; cbn.
  destruct (bool_decide (CACHE_NAME ∈ buckets w)); cbn;
    unfold pending;
    destruct (rejects P (CacheAddAll CACHE_NAME ["/"; "/vite.svg"]));
    by tidy_trace.
Qed.

(** C9, amended: on every install the first call of the listener is
    [skipWaiting], before any cache work.  Once the bucket is open, the
    population of the cache with "/" and "/vite.svg" by [cache.addAll]
    may be rejected: the rejection is caught and logged, and the promise
    handed to [waitUntil] is fulfilled all the same, so the installation
    completes. *)
Theorem install_survives_cache_failure P w :
  (∃ rest, calls (trace (dispatch P Install w).1)
           = calls (trace w) ++ SkipWaiting :: rest) ∧
  (rejects P (CachesOpen CACHE_NAME) = None →
   (dispatch P Install w).2 = Extended (Normal tt) ∧
   trace (dispatch P Install w).1 =
     trace w ++
     [ConsoleLog "🔧 Service Worker installing..." [];
      Invoke SkipWaiting;
      Invoke (CachesOpen CACHE_NAME);
      Settle (CachesOpen CACHE_NAME) true;
      Invoke (CacheAddAll CACHE_NAME ["/"; "/vite.svg"])] ++
     match rejects P (CacheAddAll CACHE_NAME ["/"; "/vite.svg"]) with
     | Some error =>
         [Settle (CacheAddAll CACHE_NAME ["/"; "/vite.svg"]) false;
          ConsoleLog "Cache addAll failed (this is okay):" [error]]
     | None => [Settle (CacheAddAll CACHE_NAME ["/"; "/vite.svg"]) true]
     end).
Proof.
  split; [apply install_skips_waiting_first |].
  intros Hopen. by rewrite (install_with_open_bucket P w Hopen).
Qed.

Lemma install_survives_cache_failure_witness :
  (dispatch offline_platform Install empty_world).2 = Extended (Normal tt) ∧
  trace (dispatch offline_platform Install empty_world).1 =
    [ConsoleLog "🔧 Service Worker installing..." [];
     Invoke SkipWaiting;
     Invoke (CachesOpen CACHE_NAME);
     Settle (CachesOpen CACHE_NAME) true;
     Invoke (CacheAddAll CACHE_NAME ["/"; "/vite.svg"]);
     Settle (CacheAddAll CACHE_NAME ["/"; "/vite.svg"]) false;
     ConsoleLog "Cache addAll failed (this is okay):"
       [JHost "TypeError: Failed to fetch"]].
Proof.
  exact (proj2 (install_survives_cache_failure offline_platform empty_world)
           eq_refl).
Defined.

(** C9, as stated, fails: the [catch] of the install listener guards
    [cache.addAll] and not [caches.open].  When the bucket cannot be
    opened nothing is caught and nothing is logged, and the promise given
    to [waitUntil] is rejected: the installation does not complete. *)
Lemma install_open_failure_counterexample :
  dispatch failing_platform Install empty_world =
    ({| trace := [ConsoleLog "🔧 Service Worker installing..." [];
                  Invoke SkipWaiting;
                  Invoke (CachesOpen CACHE_NAME);
                  Settle (CachesOpen CACHE_NAME) false];
        buckets := [] |},
     Extended (Throw (JHost "QuotaExceededError"))) ∧
  ¬ install_completes failing_platform empty_world.
Proof.
  split; [reflexivity |].
  unfold install_completes. intros Hcompletes.
  vm_compute in Hcompletes. discriminate Hcompletes.
Qed.

(** ** Push *)

Lemma field_spread (a : gmap string jsval) (b : jsval) (k : string) :
  field (spread a b) k =
    match own_props b !! k with
    | Some v => v
    | None => field a k
    end.
Proof.
  unfold field, spread. rewrite lookup_union.
  by destruct (own_props b !! k), (a !! k).
Qed.

(** The object literal of the push listener holds the documented
    defaults. *)
Lemma default_notificationData_documented P k :
  k ∈ notification_fields →
  field (default_notificationData P) k = documented_default P k.
Proof.
  unfold notification_fields. rewrite !elem_of_cons, elem_of_nil.
  intros [-> | [-> | [-> | [-> | [-> | [-> | [-> | []]]]]]]]; reflexivity.
Qed.

Lemma merged_field P payload k :
  k ∈ notification_fields →
  field (spread (default_notificationData P) payload) k = overridden P payload k.
Proof.
  intros Hk. rewrite field_spread. unfold overridden.
  by rewrite default_notificationData_documented.
Qed.

(** C1: a push whose payload parses shows one notification whose title,
    body, icon, badge, tag, requireInteraction and data are the documented
    defaults, each replaced by the field of that name of the payload when
    the payload has it; the vibration pattern and the two actions are
    fixed. *)
Theorem push_json_overrides_defaults P w event event_data payload :
  push_data event = Some event_data →
  json event_data = Some payload →
  calls (trace (dispatch P (Push event) w).1) =
    calls (trace w) ++
    [ShowNotification (overridden P payload "title")
       {| body := overridden P payload "body";
          icon := overridden P payload "icon";
          badge := overridden P payload "badge";
          tag := overridden P payload "tag";
          requireInteraction := overridden P payload "requireInteraction";
          data := overridden P payload "data";
          vibrate := [200; 100; 200]%Z;
          actions := standard_actions |}].
Proof.
  intros Hdata Hjson.
  unfold dispatch, listener, on_push, bind; cbn.
  rewrite Hdata. unfold try_catch, push_json, bind. rewrite Hjson. cbn.
  rewrite !merged_field by (unfold notification_fields; set_solver).
  unfold pending.
  destruct (rejects P _); cbn;
    rewrite <- !app_assoc, calls_app; reflexivity.
Qed.

Lemma push_json_overrides_defaults_witness :
  calls (trace (dispatch calm_platform
                  (Push (json_push "{...}" evening_payload)) empty_world).1)
  = [ShowNotification (JStr "Evening prayer")
       {| body := JStr "Time for your daily prayer session!";
          icon := JStr "/vite.svg";
          badge := JStr "/vite.svg";
          tag := JStr "prayer-notification";
          requireInteraction := JBool false;
          data := JObj {[ "url" := JStr "/sessions/5" ]};
          vibrate := [200; 100; 200]%Z;
          actions := standard_actions |}].
Proof.
  exact (push_json_overrides_defaults calm_platform empty_world
           (json_push "{...}" evening_payload) _ _ eq_refl eq_refl).
Defined.

(** An index key starts with a digit, so it is none of the names the
    listener reads. *)
Lemma index_key_not_field i k : k ∈ notification_fields → index_key i ≠ k.
Proof.
  unfold notification_fields, index_key.
  rewrite !elem_of_cons, elem_of_nil.
  intros [-> | [-> | [-> | [-> | [-> | [-> | [-> | []]]]]]]];
    destruct (Nat.to_uint i); discriminate.
Qed.

Lemma indexed_props_not_field {A} (f : nat → A → jsval) (l : list A) k :
  k ∈ notification_fields →
  (list_to_map (imap (fun i x => (index_key i, f i x)) l) : gmap string jsval) !! k
  = None.
Proof.
  intros Hk. apply not_elem_of_list_to_map_1.
  rewrite list_elem_of_fmap. intros ([k' v] & -> & Hin).
  apply elem_of_lookup_imap_1 in Hin as (i & x & [= -> ->] & _).
  by apply (index_key_not_field i (index_key i)).
Qed.

(** A payload that parses to something else than an object (a string, a
    number, an array, null) overrides nothing. *)
Lemma non_object_overrides_nothing P payload k :
  k ∈ notification_fields →
  (∀ props, payload ≠ JObj props) →
  overridden P payload k = documented_default P k.
Proof.
  intros Hk Hshape. unfold overridden.
  destruct payload; cbn; try done.
  - by rewrite (indexed_props_not_field (fun _ c => JStr (String c EmptyString))).
  - by rewrite (indexed_props_not_field (fun _ x => x)).
  - by destruct (Hshape props).
Qed.

(** C6: a push without payload, or whose payload does not parse, still
    shows one notification: its body is the raw text of the payload (the
    default body when the text is empty or there is no payload) and every
    other field is the documented default. *)
Theorem push_without_json_shows_defaults P w event :
  (push_data event = None ∨
   ∃ event_data, push_data event = Some event_data ∧ json event_data = None) →
  calls (trace (dispatch P (Push event) w).1) =
    calls (trace w) ++
    [ShowNotification (JStr "Prayer Reminder")
       {| body := fallback_body event;
          icon := JStr "/vite.svg";
          badge := JStr "/vite.svg";
          tag := JStr "prayer-notification";
          requireInteraction := JBool false;
          data := JObj {[ "url" := JStr "/";
                          "timestamp" := JNum (Finite (now P) 0) ]};
          vibrate := [200; 100; 200]%Z;
          actions := standard_actions |}].
Proof.
  intros [Habsent | (event_data & Hdata & Hjson)];
    unfold dispatch, listener, on_push, fallback_body, bind; cbn.
  - rewrite Habsent. cbn. unfold pending.
    destruct (rejects P _); cbn;
      rewrite <- !app_assoc, calls_app; reflexivity.
  - rewrite Hdata. unfold try_catch, push_json, bind. rewrite Hjson. cbn.
    unfold js_or; cbn.
    destruct (String.eqb (text event_data) ""); cbn; unfold pending;
      destruct (rejects P _); cbn;
      rewrite <- !app_assoc, calls_app; reflexivity.
Qed.

Lemma push_without_json_shows_defaults_witness :
  calls (trace (dispatch calm_platform (Push (text_push "Join us at six"))
                  empty_world).1)
  = [ShowNotification (JStr "Prayer Reminder")
       {| body := JStr "Join us at six";
          icon := JStr "/vite.svg";
          badge := JStr "/vite.svg";
          tag := JStr "prayer-notification";
          requireInteraction := JBool false;
          data := JObj {[ "url" := JStr "/";
                          "timestamp" := JNum (Finite 1700000000000 0) ]};
          vibrate := [200; 100; 200]%Z;
          actions := standard_actions |}].
Proof.
  rewrite (push_without_json_shows_defaults calm_platform empty_world
             (text_push "Join us at six")).
  - reflexivity.
  - right. eexists. split; reflexivity.
Defined.

(** ** Messages from the main app *)

Lemma message_is_exclusive event kind other :
  message_is event kind = true → other ≠ kind → message_is event other = false.
Proof.
  unfold message_is, is_string. intros Hkind Hother.
  destruct (truthy (message_data event)); [cbn in * | done].
  destruct (member (message_data event) "type"); try done.
  apply String.eqb_eq in Hkind as ->.
  apply String.eqb_neq. by intros ->.
Qed.

(** C2, as stated, fails: a SHOW_NOTIFICATION message whose payload has a
    body and no title is shown with the title [undefined], not with the
    default title of the push path. *)
Lemma message_without_title_counterexample :
  calls (trace (dispatch calm_platform
                  (Message (show_message (JObj {[ "body" := JStr "B" ]}) []))
                  empty_world).1)
  = [ShowNotification JUndefined
       {| body := JStr "B";
          icon := JStr "/vite.svg";
          badge := JStr "/vite.svg";
          tag := JStr "prayer-notification";
          requireInteraction := JBool false;
          data := JObj {[ "url" := JStr "/";
                          "timestamp" := JNum (Finite 1700000000000 0) ]};
          vibrate := [200; 100; 200]%Z;
          actions := standard_actions |}] ∧
  ¬ message_fills_like_push calm_platform empty_world
      (show_message (JObj {[ "body" := JStr "B" ]}) []).
Proof.
  split; [reflexivity |].
  intros (options & Hshown & _).
  apply list_elem_of_In in Hshown. vm_compute in Hshown.
  destruct Hshown as [Heq | []]. discriminate Heq.
Qed.

(** C2, amended: a SHOW_NOTIFICATION message whose payload is present
    shows one notification.  Title and body are those of the payload,
    passed as they are (undefined when the payload lacks them); icon, tag
    and data take their default when the payload's value is missing or
    falsy; badge and requireInteraction are fixed. *)
Theorem message_shows_payload_fields P w event :
  message_is event "SHOW_NOTIFICATION" = true →
  nullish (member (message_data event) "payload") = false →
  calls (trace (dispatch P (Message event) w).1) =
    calls (trace w) ++
    ShowNotification (member (member (message_data event) "payload") "title")
      {| body := member (member (message_data event) "payload") "body";
         icon := js_or (member (member (message_data event) "payload") "icon")
                       (JStr "/vite.svg");
         badge := JStr "/vite.svg";
         tag := js_or (member (member (message_data event) "payload") "tag")
                      (JStr "prayer-notification");
         requireInteraction := JBool false;
         data := js_or (member (member (message_data event) "payload") "data")
                       (JObj {[ "url" := JStr "/";
                                "timestamp" := JNum (Finite (now P) 0) ]});
         vibrate := [200; 100; 200]%Z;
         actions := standard_actions |}
    :: match ports event with
       | port :: _ => [PortPostMessage port success_reply]
       | [] => []
       end.
Proof.
  intros Hshow Hpayload.
  unfold dispatch, listener, on_message, bind; cbn.
  rewrite Hshow.
  rewrite (message_is_exclusive event _ "SKIP_WAITING" Hshow) by done.
  rewrite (message_is_exclusive event _ "CLIENTS_CLAIM" Hshow) by done.
  unfold require_object_coercible. rewrite Hpayload. cbn.
  unfold pending.
  destruct (ports event) as [| port others]; cbn;
    destruct (rejects P _); cbn;
    rewrite <- !app_assoc, calls_app; reflexivity.
Qed.

Lemma message_shows_payload_fields_witness :
  calls (trace (dispatch calm_platform
                  (Message (show_message
                              (JObj {[ "title" := JStr "T"; "body" := JStr "B" ]})
                              [7]))
                  empty_world).1)
  = [ShowNotification (JStr "T")
       {| body := JStr "B";
          icon := JStr "/vite.svg";
          badge := JStr "/vite.svg";
          tag := JStr "prayer-notification";
          requireInteraction := JBool false;
          data := JObj {[ "url" := JStr "/";
                          "timestamp" := JNum (Finite 1700000000000 0) ]};
          vibrate := [200; 100; 200]%Z;
          actions := standard_actions |};
     PortPostMessage 7 success_reply].
Proof.
  exact (message_shows_payload_fields calm_platform empty_world
           (show_message (JObj {[ "title" := JStr "T"; "body" := JStr "B" ]}) [7])
           eq_refl eq_refl).
Defined.

(** C3, as stated, fails twice.  The reply is posted by the listener
    itself, before the platform has settled the show operation; and a
    message without payload makes the listener throw before it replies,
    reply port or not. *)
Lemma reply_before_show_settles_counterexample :
  (∃ title options,
     trace (dispatch calm_platform
              (Message (show_message
                          (JObj {[ "title" := JStr "T"; "body" := JStr "B" ]}) [7]))
              empty_world).1
     = [ConsoleLog "📨 Service Worker received message:"
          [JObj {[ "type" := JStr "SHOW_NOTIFICATION";
                   "payload" := JObj {[ "title" := JStr "T"; "body" := JStr "B" ]} ]}];
        Invoke (ShowNotification title options);
        Invoke (PortPostMessage 7 success_reply);
        Settle (ShowNotification title options) true]) ∧
  ¬ replies_once_show_resolved
      (trace (dispatch calm_platform
                (Message (show_message
                            (JObj {[ "title" := JStr "T"; "body" := JStr "B" ]}) [7]))
                empty_world).1) 7 ∧
  dispatch calm_platform (Message (bare_show_message [7])) empty_world
  = ({| trace := [ConsoleLog "📨 Service Worker received message:"
                    [JObj {[ "type" := JStr "SHOW_NOTIFICATION" ]}]];
        buckets := [] |},
     ListenerThrew (JHost "TypeError")) ∧
  ¬ replies_once_show_resolved
      (trace (dispatch calm_platform (Message (bare_show_message [7]))
                empty_world).1) 7.
Proof.
  split_and!.
  - do 2 eexists. reflexivity.
  - intros (before & later & title & options & Htrace & Hsettled & _).
    vm_compute in Htrace.
    destruct before as [| e0 [| e1 [| e2 [| e3 [| e4 before]]]]];
      try discriminate Htrace.
    injection Htrace as <- <- _.
    rewrite !elem_of_cons, elem_of_nil in Hsettled.
    destruct Hsettled as [H | [H | []]]; discriminate H.
  - reflexivity.
  - intros (before & later & title & options & Htrace & Hsettled & _).
    vm_compute in Htrace.
    destruct before as [| e0 [| e1 before]]; discriminate Htrace.
Qed.

(** C3, amended: for a SHOW_NOTIFICATION message whose payload is
    present, the listener posts one reply [{success: true}] on the first
    port when there is one, right after it has asked for the notification
    and before that operation settles, whether it is then fulfilled or
    rejected; without a port it posts nothing. *)
Theorem reply_posted_without_waiting P w event :
  message_is event "SHOW_NOTIFICATION" = true →
  nullish (member (message_data event) "payload") = false →
  ∃ title options,
    trace (dispatch P (Message event) w).1 =
      trace w ++
      [ConsoleLog "📨 Service Worker received message:" [message_data event];
       Invoke (ShowNotification title options)] ++
      match ports event with
      | port :: _ => [Invoke (PortPostMessage port success_reply)]
      | [] => []
      end ++
      [Settle (ShowNotification title options)
         (fulfils P (ShowNotification title options))].
Proof.
  intros Hshow Hpayload.
  unfold dispatch, listener, on_message, bind; cbn.
  rewrite Hshow.
  rewrite (message_is_exclusive event _ "SKIP_WAITING" Hshow) by done.
  rewrite (message_is_exclusive event _ "CLIENTS_CLAIM" Hshow) by done.
  unfold require_object_coercible. rewrite Hpayload. cbn.
  match goal with
  | |- context [Invoke (ShowNotification ?title ?options)] =>
      exists title, options
  end.
  unfold pending, fulfils.
  destruct (ports event) as [| port others]; cbn;
    destruct (rejects P _); cbn;
    rewrite <- !app_assoc; reflexivity.
Qed.

Lemma reply_posted_without_waiting_witness :
  ∃ title options,
    trace (dispatch calm_platform
             (Message (show_message
                         (JObj {[ "title" := JStr "T"; "body" := JStr "B" ]}) [7]))
             empty_world).1
    = [ConsoleLog "📨 Service Worker received message:"
         [JObj {[ "type" := JStr "SHOW_NOTIFICATION";
                  "payload" := JObj {[ "title" := JStr "T"; "body" := JStr "B" ]} ]}];
       Invoke (ShowNotification title options);
       Invoke (PortPostMessage 7 success_reply);
       Settle (ShowNotification title options) true].
Proof.
  exact (reply_posted_without_waiting calm_platform empty_world
           (show_message (JObj {[ "title" := JStr "T"; "body" := JStr "B" ]}) [7])
           eq_refl eq_refl).
Defined.

(** ** Notification click: focus or open *)

Lemma prefix_append (s rest : string) : String.prefix s (String.append s rest) = true.
Proof.
  induction s as [| a s IH]; [by destruct rest |].
  change (String.prefix (String a s) (String a (String.append s rest)) = true).
  cbn [String.prefix].
  destruct (Ascii.ascii_dec a a) as [_ | Hne]; [exact IH | by destruct Hne].
Qed.

(** A URL made of the origin and a path passes the listener's test. *)
Lemma includes_origin (origin_ path : string) :
  includes (String.append origin_ path) origin_ = true.
Proof.
  destruct origin_ as [| a s]; [destruct path; reflexivity |].
  change (includes (String a (String.append s path)) (String a s) = true).
  cbn [includes].
  change (String a (String.append s path)) with (String.append (String a s) path).
  by rewrite prefix_append.
Qed.

(** A window client whose URL is the origin followed by a path is a
    window of the application for the listener. *)
Lemma origin_window_is_app_window P client path :
  url client = String.append (origin P) path →
  has_focus client = true →
  is_app_window P client = true.
Proof.
  intros Hurl Hfocus. unfold is_app_window.
  by rewrite Hurl, includes_origin, Hfocus.
Qed.

(** The loop passes over the windows that fail the test. *)
Lemma focus_or_open_skips P event skipped rest :
  Forall (fun c => is_app_window P c = false) skipped →
  focus_or_open P event (skipped ++ rest) = focus_or_open P event rest.
Proof.
  induction 1 as [| c skipped Hc _ IH]; [done |].
  cbn. unfold is_app_window in Hc. by rewrite Hc.
Qed.

Lemma prefix_spec (sub s : string) :
  String.prefix sub s = true ↔ ∃ post, s = String.append sub post.
Proof.
  revert s. induction sub as [| a sub IH]; intros s.
  - split; [intros _; by exists s | intros _; by destruct s].
  - destruct s as [| b s].
    + split; [done | intros [post Hs]; discriminate Hs].
    + cbn [String.prefix]. destruct (Ascii.ascii_dec a b) as [<- | Hne].
      * rewrite IH. split; intros [post Hs]; exists post.
        -- by rewrite Hs.
        -- by injection Hs.
      * split; [done | intros [post Hs]]. injection Hs as Hab _. by destruct Hne.
Qed.

(** [includes] is the substring test. *)
Lemma includes_spec (s sub : string) :
  includes s sub = true ↔
  ∃ pre post, s = String.append pre (String.append sub post).
Proof.
  split.
  - induction s as [| a s IH].
    + cbn [includes]. rewrite orb_false_r. intros [post Hs]%prefix_spec.
      by exists EmptyString, post.
    + cbn [includes]. intros [[post Hs]%prefix_spec | (pre & post & Hs)%IH]%orb_true_iff.
      * by exists EmptyString, post.
      * exists (String a pre), post. by rewrite Hs.
  - intros (pre & post & ->). induction pre as [| a pre IH].
    + change (String.append EmptyString (String.append sub post))
        with (String.append sub post).
      assert (Hprefix : String.prefix sub (String.append sub post) = true)
        by (apply prefix_spec; by exists post).
      destruct (String.append sub post); cbn [includes]; by rewrite Hprefix.
    + change (String.append (String a pre) (String.append sub post))
        with (String a (String.append pre (String.append sub post))).
      cbn [includes]. rewrite IH. apply orb_true_r.
Qed.

(** The click listener when some window passes its test: the first one
    that passes is focused, then navigated when there is a target. *)
Lemma click_focuses_first_match P w event skipped client later :
  action event ≠ "dismiss" →
  rejects P (ClientsMatchAll "window" true) = None →
  windows P = skipped ++ client :: later →
  Forall (fun c => is_app_window P c = false) skipped →
  is_app_window P client = true →
  calls (trace (dispatch P (NotificationClick event) w).1) =
    calls (trace w) ++
    [NotificationClose (notification_tag (notification event));
     ClientsMatchAll "window" true;
     ClientFocus client] ++
    (if fulfils P (ClientFocus client) && truthy (click_target event)
     then [ClientNavigate client (click_target event)]
     else []).
Proof.
  intros Haction Hmatch Hwindows Hskipped Hclient.
  unfold dispatch, listener, on_notificationclick, bind; cbn.
  rewrite (eqb_neq_false _ _ Haction). cbn.
  unfold then_, bind, pending at 1. rewrite Hmatch. cbn.
  rewrite Hwindows, (focus_or_open_skips _ _ _ _ Hskipped). cbn.
  unfold is_app_window in Hclient. rewrite Hclient.
  unfold bind, fulfils, click_target; cbn.
  unfold pending at 1.
  destruct (rejects P (ClientFocus client)); cbn.
  - rewrite <- !app_assoc, calls_app. reflexivity.
  - destruct (truthy (opt_member (notification_data (notification event)) "url"));
      cbn;
      [unfold pending, void, bind; destruct (rejects P (ClientNavigate _ _)); cbn |];
      rewrite <- !app_assoc, calls_app; reflexivity.
Qed.

(** A window whose URL does not hold the origin fails the test of the
    listener. *)
Lemma foreign_window_fails_test P client :
  ¬ mentions_origin P client → is_app_window P client = false.
Proof.
  intros Hforeign. unfold is_app_window.
  destruct (includes (url client) (origin P)) eqn:Hincludes; [| done].
  destruct Hforeign. by apply includes_spec.
Qed.

(** C4: on a click that is not a dismissal, take the windows in the
    order of [matchAll] (uncontrolled ones included): when one of them has
    a URL that shares the origin of the worker, and the ones listed before
    it have URLs without that origin, this window is focused; once focused
    it is navigated to the target URL, when the notification has one; no
    window is opened, and no other window is focused. *)
Theorem click_focuses_first_app_window P w event skipped client later :
  action event ≠ "dismiss" →
  rejects P (ClientsMatchAll "window" true) = None →
  windows P = skipped ++ client :: later →
  Forall (fun c => ¬ mentions_origin P c) skipped →
  shares_origin P client →
  has_focus client = true →
  calls (trace (dispatch P (NotificationClick event) w).1) =
    calls (trace w) ++
    [NotificationClose (notification_tag (notification event));
     ClientsMatchAll "window" true;
     ClientFocus client] ++
    (if fulfils P (ClientFocus client) && truthy (click_target event)
     then [ClientNavigate client (click_target event)]
     else []).
Proof.
  intros Haction Hmatch Hwindows Hskipped [path Hurl] Hfocus.
  apply (click_focuses_first_match P w event skipped client later);
    [done | done | done | | by apply (origin_window_is_app_window P client path)].
  eapply Forall_impl; [exact Hskipped |].
  intros c Hc. by apply foreign_window_fails_test.
Qed.

Lemma click_focuses_first_app_window_witness :
  calls (trace (dispatch blank_then_home
                  (NotificationClick (click (JStr "/sessions/5") ""))
                  empty_world).1)
  = [NotificationClose "prayer-notification";
     ClientsMatchAll "window" true;
     ClientFocus {| client_id := 2; url := "https://adullam.example/home";
                    has_focus := true |};
     ClientNavigate {| client_id := 2; url := "https://adullam.example/home";
                       has_focus := true |} (JStr "/sessions/5")].
Proof.
  apply (click_focuses_first_app_window blank_then_home empty_world
           (click (JStr "/sessions/5") "")
           [ {| client_id := 1; url := "about:blank"; has_focus := true |} ]
           {| client_id := 2; url := "https://adullam.example/home";
              has_focus := true |} []).
  - discriminate.
  - reflexivity.
  - reflexivity.
  - constructor; [| constructor].
    intros Hmentions. apply includes_spec in Hmentions. discriminate Hmentions.
  - by exists "/home".
  - reflexivity.
Defined.

(** C8: on a click that is not a dismissal, when no open window passes
    the listener's test, one window is opened, at the target URL of the
    notification, or at "/" when it has none. *)
Theorem click_opens_window_when_none_matches P w event :
  action event ≠ "dismiss" →
  rejects P (ClientsMatchAll "window" true) = None →
  Forall (fun c => is_app_window P c = false) (windows P) →
  has_openWindow P = true →
  calls (trace (dispatch P (NotificationClick event) w).1) =
    calls (trace w) ++
    [NotificationClose (notification_tag (notification event));
     ClientsMatchAll "window" true;
     ClientsOpenWindow (js_or (click_target event) (JStr "/"))].
Proof.
  intros Haction Hmatch Hnone Hopen.
  unfold dispatch, listener, on_notificationclick, bind; cbn.
  rewrite (eqb_neq_false _ _ Haction). cbn.
  unfold then_, bind, pending at 1. rewrite Hmatch. cbn.
  rewrite <- (app_nil_r (windows P)), (focus_or_open_skips _ _ _ _ Hnone). cbn.
  rewrite Hopen. unfold click_target; cbn.
  unfold pending. destruct (rejects P (ClientsOpenWindow _)); cbn;
    rewrite <- !app_assoc, calls_app; reflexivity.
Qed.

Lemma click_opens_window_when_none_matches_witness :
  calls (trace (dispatch offline_platform
                  (NotificationClick (click (JStr "/sessions/5") "open"))
                  empty_world).1)
  = [NotificationClose "prayer-notification";
     ClientsMatchAll "window" true;
     ClientsOpenWindow (JStr "/sessions/5")] ∧
  calls (trace (dispatch offline_platform
                  (NotificationClick
                     {| notification :=
                          {| notification_tag := "prayer-notification";
                             notification_data := JNull |};
                        action := "" |})
                  empty_world).1)
  = [NotificationClose "prayer-notification";
     ClientsMatchAll "window" true;
     ClientsOpenWindow (JStr "/")].
Proof.
  split.
  - apply (click_opens_window_when_none_matches offline_platform empty_world
             (click (JStr "/sessions/5") "open")).
    + discriminate.
    + reflexivity.
    + constructor.
    + reflexivity.
  - apply (click_opens_window_when_none_matches offline_platform empty_world
             {| notification :=
                  {| notification_tag := "prayer-notification";
                     notification_data := JNull |};
                action := "" |}).
    + discriminate.
    + reflexivity.
    + constructor.
    + reflexivity.
Defined.

(** ** Activate *)

Lemma filter_ext_elem {A} (P1 P2 : A → Prop)
    `{!∀ x, Decision (P1 x), !∀ x, Decision (P2 x)} (l : list A) :
  (∀ x, x ∈ l → (P1 x ↔ P2 x)) → filter P1 l = filter P2 l.
Proof.
  induction l as [| a l IH]; intros Hiff; [done |].
  rewrite !filter_cons.
  rewrite IH by (intros x Hx; apply Hiff; by right).
  apply decide_ext, Hiff. by left.
Qed.

(** The callbacks of [map] ask for one deletion per name, in order, and
    leave the buckets as they are: the deletions are only pending. *)
Lemma array_map_deletions P names w :
  ∃ w',
    array_map
      (fun name =>
         console_log "🗑️ Deleting old cache:" [JStr name] ;;
         caches_delete P name)
      names w
    = (w', Normal (map (fun name => pending P (CachesDelete name) (delete_bucket name))
                       names)) ∧
    buckets w' = buckets w ∧
    calls (trace w') = calls (trace w) ++ map CachesDelete names.
Proof.
  revert w. induction names as [| name names IH]; intros w.
  - exists w. cbn. by rewrite app_nil_r.
  - destruct (IH (after (after w [ConsoleLog "🗑️ Deleting old cache:" [JStr name]])
                        [Invoke (CachesDelete name)]))
      as (w' & Hrun & Hbuckets & Hcalls).
    exists w'. split_and!; [| done |].
    + cbn [array_map map].
      erewrite bind_normal; [| reflexivity].
      erewrite bind_normal; [| exact Hrun].
      reflexivity.
    + rewrite Hcalls. unfold after; cbn.
      rewrite !calls_app, <- !app_assoc. reflexivity.
Qed.

(** Settling the deletions issues no call; when every deletion is
    fulfilled, the buckets named are gone and the others remain. *)
Lemma promise_all_deletions P names w :
  ∃ w' r,
    promise_all
      (map (fun name => pending P (CachesDelete name) (delete_bucket name)) names) w
    = (w', r) ∧
    calls (trace w') = calls (trace w) ∧
    ((∀ name, rejects P (CachesDelete name) = None) →
     buckets w' = filter (fun b => b ∉ names) (buckets w)).
Proof.
  revert w. induction names as [| name names IH]; intros w.
  - exists w, (Normal []). split_and!; [done | done |].
    intros _. symmetry. induction (buckets w) as [| b bs IHb]; [done |].
    rewrite filter_cons_True by apply not_elem_of_nil. by rewrite IHb.
  - cbn [map promise_all].
    destruct (pending P (CachesDelete name) (delete_bucket name) w)
      as [w1 r1] eqn:Hfirst.
    destruct (IH w1) as (w' & r & Hrest & Hcalls & Hbuckets).
    rewrite Hrest. do 2 eexists. split; [reflexivity |].
    unfold pending in Hfirst.
    destruct (rejects P (CachesDelete name)) as [e |] eqn:Hrejects.
    + split.
      * injection Hfirst as <- <-. rewrite Hcalls. cbn.
        rewrite calls_app. cbn. by rewrite app_nil_r.
      * intros Hall. by rewrite Hall in Hrejects.
    + injection Hfirst as <- <-. split.
      * rewrite Hcalls. cbn. rewrite calls_app. cbn. by rewrite app_nil_r.
      * intros Hall. rewrite (Hbuckets Hall). cbn.
        rewrite list_filter_filter. apply list_filter_iff.
        intros b. rewrite not_elem_of_cons. tauto.
Qed.

(** C5: on activation the worker asks for the deletion of every bucket
    whose name differs from the current version, and of no other; when
    these deletions are fulfilled, the buckets left are the ones named
    'adullam-prayer-v1'. *)
Theorem activate_deletes_stale_buckets P w :
  rejects P CachesKeys = None →
  calls (trace (dispatch P Activate w).1) =
    calls (trace w) ++
    [CachesKeys; ClientsClaim] ++
    map CachesDelete (filter (fun name => name ≠ CACHE_NAME) (buckets w)) ∧
  (∀ name, name ∈ buckets w →
     (CachesDelete name
        ∈ map CachesDelete (filter (fun name => name ≠ CACHE_NAME) (buckets w))
      ↔ name ≠ CACHE_NAME)) ∧
  ((∀ name, rejects P (CachesDelete name) = None) →
   buckets (dispatch P Activate w).1
   = filter (fun name => name = CACHE_NAME) (buckets w)).
Proof.
  intros Hkeys.
  assert (Hrun : ∃ w' settled,
             dispatch P Activate w = (w', settled) ∧
             calls (trace w') =
               calls (trace w) ++ [CachesKeys; ClientsClaim] ++
               map CachesDelete (filter (fun name => name ≠ CACHE_NAME) (buckets w)) ∧
             ((∀ name, rejects P (CachesDelete name) = None) →
              buckets w' =
                filter (fun b => b ∉ filter (fun name => name ≠ CACHE_NAME) (buckets w))
                       (buckets w))).
  { unfold dispatch, listener, on_activate, bind; cbn.
    unfold void, then_, bind, pending at 1. rewrite Hkeys. cbn.
    match goal with
    | |- context [array_map ?f ?names ?w0] =>
        destruct (array_map_deletions P names w0) as (w1 & Hmap & Hb1 & Hc1);
        match type of Hmap with
        | _ = ?result => change (array_map f names w0 = result) in Hmap
        end
    end.
    rewrite Hmap. unfold ret. cbn.
    destruct (promise_all_deletions P
                (filter (fun name => name ≠ CACHE_NAME) (buckets w)) w1)
      as (w2 & r & Hall & Hc2 & Hb2).
    rewrite Hall.
    assert (Hclaim : ∃ w3 r3,
               pending P ClientsClaim (fun w0 => (w0, Normal tt)) w2 = (w3, r3) ∧
               buckets w3 = buckets w2 ∧ calls (trace w3) = calls (trace w2)).
    { unfold pending. destruct (rejects P ClientsClaim); cbn;
        do 2 eexists; (split_and!; [reflexivity | done |]);
        cbn; rewrite calls_app; cbn; by rewrite app_nil_r. }
    destruct Hclaim as (w3 & r3 & Hclaim & Hb3 & Hc3).
    destruct r as [deleted | e]; rewrite Hclaim; destruct r3 as [[] | e3];
      do 2 eexists; (split_and!; [reflexivity | |]); cbn;
      try (rewrite Hc3, Hc2, Hc1; cbn; rewrite !calls_app; cbn;
           rewrite <- !app_assoc; reflexivity);
      intros Hdel; rewrite Hb3, (Hb2 Hdel), Hb1; reflexivity. }
  destruct Hrun as (w' & settled & -> & Hcalls & Hbuckets). cbn.
  split_and!.
  - exact Hcalls.
  - intros name Hname. rewrite list_elem_of_fmap. split.
    + intros (name' & Heq & Hin). injection Heq as <-.
      by apply list_elem_of_filter in Hin as [? _].
    + intros Hne. exists name. split; [done |]. by apply list_elem_of_filter.
  - intros Hdel. rewrite (Hbuckets Hdel).
    apply filter_ext_elem. intros b Hb. rewrite list_elem_of_filter.
    destruct (decide (b = CACHE_NAME)); tauto.
Qed.

Lemma activate_deletes_stale_buckets_witness :
  calls (trace (dispatch calm_platform Activate two_versions).1)
  = [CachesKeys; ClientsClaim; CachesDelete "adullam-prayer-v0"] ∧
  buckets (dispatch calm_platform Activate two_versions).1
  = ["adullam-prayer-v1"].
Proof.
  destruct (activate_deletes_stale_buckets calm_platform two_versions eq_refl)
    as (Hcalls & _ & Hbuckets).
  split.
  - exact Hcalls.
  - apply Hbuckets. reflexivity.
Defined.

(** * Further properties of the listeners *)

(** ** The control messages *)

(** X1: a SKIP_WAITING message calls [skipWaiting] and nothing else: no
    notification is shown, no reply is posted even when a port came with
    the message, and the event is not extended. *)
Theorem message_skip_waiting_only P w event :
  message_is event "SKIP_WAITING" = true →
  dispatch P (Message event) w =
    (after w [ConsoleLog "📨 Service Worker received message:" [message_data event];
              Invoke SkipWaiting],
     NotExtended).
Proof.
  intros Hkind.
  unfold dispatch, listener, on_message, bind; cbn.
  rewrite Hkind.
  rewrite (message_is_exclusive event _ "SHOW_NOTIFICATION" Hkind) by done.
  rewrite (message_is_exclusive event _ "CLIENTS_CLAIM" Hkind) by done.
  by tidy_trace.
Qed.

Lemma message_skip_waiting_only_witness :
  dispatch calm_platform (Message (control_message "SKIP_WAITING" [7])) empty_world =
    (after empty_world
       [ConsoleLog "📨 Service Worker received message:"
          [JObj {[ "type" := JStr "SKIP_WAITING" ]}];
        Invoke SkipWaiting],
     NotExtended).
Proof.
  exact (message_skip_waiting_only calm_platform empty_world
           (control_message "SKIP_WAITING" [7]) eq_refl).
Defined.

(** X2: a CLIENTS_CLAIM message calls [clients.claim] and nothing else. *)
Theorem message_clients_claim_only P w event :
  message_is event "CLIENTS_CLAIM" = true →
  dispatch P (Message event) w =
    (after w [ConsoleLog "📨 Service Worker received message:" [message_data event];
              Invoke ClientsClaim],
     NotExtended).
Proof.
  intros Hkind.
  unfold dispatch, listener, on_message, bind; cbn.
  rewrite Hkind.
  rewrite (message_is_exclusive event _ "SHOW_NOTIFICATION" Hkind) by done.
  rewrite (message_is_exclusive event _ "SKIP_WAITING" Hkind) by done.
  by tidy_trace.
Qed.

Lemma message_clients_claim_only_witness :
  dispatch calm_platform (Message (control_message "CLIENTS_CLAIM" [])) empty_world =
    (after empty_world
       [ConsoleLog "📨 Service Worker received message:"
          [JObj {[ "type" := JStr "CLIENTS_CLAIM" ]}];
        Invoke ClientsClaim],
     NotExtended).
Proof.
  exact (message_clients_claim_only calm_platform empty_world
           (control_message "CLIENTS_CLAIM" []) eq_refl).
Defined.

(** X3: a message of no known kind (no data, data without a type, another
    type) is logged and ignored: no call, no reply, no throw. *)
Theorem unknown_message_ignored P w event :
  message_is event "SHOW_NOTIFICATION" = false →
  message_is event "SKIP_WAITING" = false →
  message_is event "CLIENTS_CLAIM" = false →
  dispatch P (Message event) w =
    (after w [ConsoleLog "📨 Service Worker received message:" [message_data event]],
     NotExtended).
Proof.
  intros Hshow Hskip Hclaim.
  unfold dispatch, listener, on_message, bind; cbn.
  by rewrite Hshow, Hskip, Hclaim.
Qed.

Lemma unknown_message_ignored_witness :
  dispatch calm_platform (Message (control_message "PING" [7])) empty_world =
    (after empty_world
       [ConsoleLog "📨 Service Worker received message:"
          [JObj {[ "type" := JStr "PING" ]}]],
     NotExtended) ∧
  dispatch calm_platform (Message {| message_data := JNull; ports := [7] |})
    empty_world =
    (after empty_world
       [ConsoleLog "📨 Service Worker received message:" [JNull]],
     NotExtended).
Proof.
  split.
  - exact (unknown_message_ignored calm_platform empty_world
             (control_message "PING" [7]) eq_refl eq_refl eq_refl).
  - exact (unknown_message_ignored calm_platform empty_world
             {| message_data := JNull; ports := [7] |} eq_refl eq_refl eq_refl).
Defined.

(** X4: a SHOW_NOTIFICATION message whose payload is missing or null makes
    the listener throw a TypeError at the destructuring: nothing is shown,
    nothing is replied, and the event is not extended. *)
Theorem show_message_without_payload_throws P w event :
  message_is event "SHOW_NOTIFICATION" = true →
  nullish (member (message_data event) "payload") = true →
  dispatch P (Message event) w =
    (after w [ConsoleLog "📨 Service Worker received message:" [message_data event]],
     ListenerThrew (JHost "TypeError")).
Proof.
  intros Hshow Hpayload.
  unfold dispatch, listener, on_message, bind; cbn.
  rewrite Hshow. unfold require_object_coercible. by rewrite Hpayload.
Qed.

Lemma show_message_without_payload_throws_witness :
  dispatch calm_platform (Message (show_message JNull [7])) empty_world =
    (after empty_world
       [ConsoleLog "📨 Service Worker received message:"
          [JObj {[ "type" := JStr "SHOW_NOTIFICATION"; "payload" := JNull ]}]],
     ListenerThrew (JHost "TypeError")).
Proof.
  exact (show_message_without_payload_throws calm_platform empty_world
           (show_message JNull [7]) eq_refl eq_refl).
Defined.

(** ** The two ways to a notification *)

(** X5: the push path and the message path show the same notification
    for a payload object that has a title and a body, sets neither badge
    nor requireInteraction, and whose icon, tag and data, when present,
    are truthy. *)
Theorem push_and_message_agree P w props raw reply_ports :
  is_Some (props !! "title") →
  is_Some (props !! "body") →
  props !! "badge" = None →
  props !! "requireInteraction" = None →
  (∀ k v, k ∈ ["icon"; "tag"; "data"] → props !! k = Some v → truthy v = true) →
  ∃ title options,
    calls (trace (dispatch P (Push (json_push raw (JObj props))) w).1)
    = calls (trace w) ++ [ShowNotification title options] ∧
    calls (trace (dispatch P (Message (show_message (JObj props) reply_ports)) w).1)
    = calls (trace w) ++
      ShowNotification title options
      :: match reply_ports with
         | port :: _ => [PortPostMessage port success_reply]
         | [] => []
         end.
Proof.
  intros [title Htitle] [body_ Hbody] Hbadge Hinteraction Htruthy.
  assert (Hor : ∀ k fallback,
             k ∈ ["icon"; "tag"; "data"] →
             js_or (field props k) fallback
             = match props !! k with Some v => v | None => fallback end).
  { intros k fallback Hk. unfold js_or, field.
    destruct (props !! k) as [v |] eqn:Hlookup; cbn; [| done].
    by rewrite (Htruthy k v Hk Hlookup). }
  exists title,
    {| body := body_;
       icon := match props !! "icon" with Some v => v | None => JStr "/vite.svg" end;
       badge := JStr "/vite.svg";
       tag := match props !! "tag" with
              | Some v => v
              | None => JStr "prayer-notification"
              end;
       requireInteraction := JBool false;
       data := match props !! "data" with Some v => v | None => default_data P end;
       vibrate := [200; 100; 200]%Z;
       actions := standard_actions |}.
  split.
  - unfold dispatch, listener, on_push, bind; cbn.
    unfold try_catch, push_json, bind; cbn.
    change (props ∪ default_notificationData P)
      with (spread (default_notificationData P) (JObj props)).
    rewrite !field_spread. cbn [own_props].
    rewrite Htitle, Hbody, Hbadge, Hinteraction.
    change (field (default_notificationData P) "icon") with (JStr "/vite.svg").
    change (field (default_notificationData P) "badge") with (JStr "/vite.svg").
    change (field (default_notificationData P) "tag")
      with (JStr "prayer-notification").
    change (field (default_notificationData P) "requireInteraction")
      with (JBool false).
    change (field (default_notificationData P) "data") with (default_data P).
    unfold pending. destruct (rejects P _); cbn;
      rewrite <- !app_assoc, calls_app; reflexivity.
  - unfold dispatch, listener, on_message, bind; cbn.
    change (member (JObj {[ "type" := JStr "SHOW_NOTIFICATION";
                            "payload" := JObj props ]}) "type")
      with (JStr "SHOW_NOTIFICATION").
    change (member (JObj {[ "type" := JStr "SHOW_NOTIFICATION";
                            "payload" := JObj props ]}) "payload")
      with (JObj props).
    cbn.
    change (member (JObj props)) with (field props).
    rewrite !Hor by set_solver.
    unfold field. rewrite Htitle, Hbody. cbn.
    unfold pending.
    destruct reply_ports as [| port others]; cbn;
      destruct (rejects P _); cbn;
      rewrite <- !app_assoc, calls_app; reflexivity.
Qed.

Lemma push_and_message_agree_witness :
  ∃ title options,
    calls (trace (dispatch calm_platform
                    (Push (json_push "{...}"
                             (JObj {[ "title" := JStr "T"; "body" := JStr "B";
                                      "tag" := JStr "evening" ]})))
                    empty_world).1)
    = [ShowNotification title options] ∧
    calls (trace (dispatch calm_platform
                    (Message (show_message
                                (JObj {[ "title" := JStr "T"; "body" := JStr "B";
                                         "tag" := JStr "evening" ]}) [7]))
                    empty_world).1)
    = [ShowNotification title options; PortPostMessage 7 success_reply].
Proof.
  apply (push_and_message_agree calm_platform empty_world
           {[ "title" := JStr "T"; "body" := JStr "B"; "tag" := JStr "evening" ]}
           "{...}" [7]).
  - by eexists.
  - by eexists.
  - reflexivity.
  - reflexivity.
  - intros k v Hk.
    rewrite !elem_of_cons, elem_of_nil in Hk.
    destruct Hk as [-> | [-> | [-> | []]]]; vm_compute; intros [= <-]; reflexivity.
Defined.

(** ** Notification click: the test and the failures *)

(** X6: the test of the click listener on a window is a substring test:
    a window passes exactly when it can be focused and its URL contains
    the text of the worker's origin somewhere, at the start or not. *)
Theorem app_window_test_is_substring P client :
  is_app_window P client = true ↔
  has_focus client = true ∧
  ∃ pre post,
    url client = String.append pre (String.append (origin P) post).
Proof.
  unfold is_app_window. rewrite andb_true_iff, includes_spec. tauto.
Qed.

(** The click listener up to the moment [matchAll] has settled. *)
Lemma click_run P w event :
  action event ≠ "dismiss" →
  dispatch P (NotificationClick event) w =
    let w1 :=
      after w [ConsoleLog "👆 Notification clicked:"
                 [JStr (notification_tag (notification event))];
               Invoke (NotificationClose (notification_tag (notification event)));
               Invoke (ClientsMatchAll "window" true)] in
    match rejects P (ClientsMatchAll "window" true) with
    | Some e => (after w1 [Settle (ClientsMatchAll "window" true) false],
                 Extended (Throw e))
    | None =>
        match focus_or_open P event (windows P)
                (after w1 [Settle (ClientsMatchAll "window" true) true]) with
        | (w2, Normal continuation) =>
            let '(w3, settled) := continuation w2 in (w3, Extended settled)
        | (w2, Throw e) => (w2, Extended (Throw e))
        end
    end.
Proof.
  intros Haction.
  unfold dispatch, listener, on_notificationclick, bind; cbn.
  rewrite (eqb_neq_false _ _ Haction). cbn.
  unfold then_, bind, pending.
  destruct (rejects P (ClientsMatchAll "window" true)); cbn.
  - by tidy_trace.
  - unfold after; cbn. rewrite <- !app_assoc. cbn.
    by destruct (focus_or_open P event (windows P) _) as [w2 [continuation | e]].
Qed.

(** X7: when a window passes the test, the event lives as long as the
    focus and the navigation: a rejected focus rejects the promise given
    to [waitUntil] (the navigation is then not tried, so its outcome does
    not count), a rejected navigation rejects it as well, and otherwise it
    is fulfilled. *)
Theorem click_lifetime_follows_focus_and_navigation
    P w event skipped client later :
  action event ≠ "dismiss" →
  rejects P (ClientsMatchAll "window" true) = None →
  windows P = skipped ++ client :: later →
  Forall (fun c => is_app_window P c = false) skipped →
  is_app_window P client = true →
  (dispatch P (NotificationClick event) w).2 =
    Extended
      match rejects P (ClientFocus client) with
      | Some e => Throw e
      | None =>
          if truthy (click_target event) then
            match rejects P (ClientNavigate client (click_target event)) with
            | Some e => Throw e
            | None => Normal tt
            end
          else Normal tt
      end.
Proof.
  intros Haction Hmatch Hwindows Hskipped Hclient.
  rewrite (click_run P w event Haction), Hmatch. cbn zeta.
  rewrite Hwindows, (focus_or_open_skips _ _ _ _ Hskipped).
  cbn [focus_or_open]. unfold is_app_window in Hclient. rewrite Hclient.
  unfold click_target, client_focus, client_navigate, request, then_, void, bind;
    cbn.
  unfold pending at 1.
  destruct (rejects P (ClientFocus client)) as [e |]; cbn; [done |].
  destruct (truthy (opt_member (notification_data (notification event)) "url"));
    cbn; [| done].
  unfold pending, bind.
  by destruct (rejects P (ClientNavigate client _)).
Qed.

Lemma click_lifetime_follows_focus_and_navigation_witness :
  (dispatch failing_platform
     (NotificationClick (click (JStr "/sessions/5") "open")) empty_world).2
  = Extended (Throw (JHost "InvalidAccessError")) ∧
  (dispatch calm_platform
     (NotificationClick (click (JStr "/sessions/5") "open")) empty_world).2
  = Extended (Normal tt).
Proof.
  split.
  - apply (click_lifetime_follows_focus_and_navigation failing_platform
             empty_world (click (JStr "/sessions/5") "open") []
             {| client_id := 1; url := "https://adullam.example/home";
                has_focus := true |} []);
      [discriminate | reflexivity | reflexivity | constructor | reflexivity].
  - apply (click_lifetime_follows_focus_and_navigation calm_platform
             empty_world (click (JStr "/sessions/5") "open") []
             {| client_id := 1; url := "https://adullam.example/home";
                has_focus := true |} []);
      [discriminate | reflexivity | reflexivity | constructor | reflexivity].
Defined.

(** X8: when no window passes the test and the platform has no
    [clients.openWindow], the click closes the notification, lists the
    windows and stops there: nothing is opened and the event ends well. *)
Theorem click_without_openWindow P w event :
  action event ≠ "dismiss" →
  rejects P (ClientsMatchAll "window" true) = None →
  Forall (fun c => is_app_window P c = false) (windows P) →
  has_openWindow P = false →
  dispatch P (NotificationClick event) w =
    (after w [ConsoleLog "👆 Notification clicked:"
                [JStr (notification_tag (notification event))];
              Invoke (NotificationClose (notification_tag (notification event)));
              Invoke (ClientsMatchAll "window" true);
              Settle (ClientsMatchAll "window" true) true],
     Extended (Normal tt)).
Proof.
  intros Haction Hmatch Hnone Hopen.
  rewrite (click_run P w event Haction), Hmatch. cbn zeta.
  rewrite <- (app_nil_r (windows P)), (focus_or_open_skips _ _ _ _ Hnone).
  cbn [focus_or_open]. rewrite Hopen. cbn.
  unfold after; cbn. by rewrite <- !app_assoc.
Qed.

Lemma click_without_openWindow_witness :
  calls (trace (dispatch bare_platform
                  (NotificationClick (click (JStr "/sessions/5") ""))
                  empty_world).1)
  = [NotificationClose "prayer-notification"; ClientsMatchAll "window" true].
Proof.
  rewrite (click_without_openWindow bare_platform empty_world
             (click (JStr "/sessions/5") ""));
    [reflexivity | discriminate | reflexivity | constructor | reflexivity].
Defined.

(** X9: when [clients.matchAll] is rejected, the click focuses nothing
    and opens nothing, whatever windows are open, and the promise given to
    [waitUntil] is rejected with the same reason. *)
Theorem click_matchAll_rejected P w event e :
  action event ≠ "dismiss" →
  rejects P (ClientsMatchAll "window" true) = Some e →
  dispatch P (NotificationClick event) w =
    (after w [ConsoleLog "👆 Notification clicked:"
                [JStr (notification_tag (notification event))];
              Invoke (NotificationClose (notification_tag (notification event)));
              Invoke (ClientsMatchAll "window" true);
              Settle (ClientsMatchAll "window" true) false],
     Extended (Throw e)).
Proof.
  intros Haction Hmatch.
  rewrite (click_run P w event Haction), Hmatch. cbn zeta.
  unfold after; cbn. by rewrite <- !app_assoc.
Qed.

Lemma click_matchAll_rejected_witness :
  dispatch blind_platform (NotificationClick (click (JStr "/sessions/5") ""))
    empty_world =
    (after empty_world
       [ConsoleLog "👆 Notification clicked:" [JStr "prayer-notification"];
        Invoke (NotificationClose "prayer-notification");
        Invoke (ClientsMatchAll "window" true);
        Settle (ClientsMatchAll "window" true) false],
     Extended (Throw (JHost "AbortError"))).
Proof.
  apply (click_matchAll_rejected blind_platform empty_world
           (click (JStr "/sessions/5") "") (JHost "AbortError"));
    [discriminate | reflexivity].
Defined.

(** The loop reads the notification of the event and not its action. *)
Lemma focus_or_open_ignores_action P n action1 action2 clientList :
  focus_or_open P {| notification := n; action := action1 |} clientList
  = focus_or_open P {| notification := n; action := action2 |} clientList.
Proof.
  induction clientList as [| client rest IH]; [done |].
  cbn [focus_or_open]. by rewrite IH.
Qed.

(** X10: every action other than "dismiss" is routed alike: a click on
    the "open" button, on an unknown button or on the body of the
    notification has the same effects. *)
Theorem click_routing_ignores_action P w n action1 action2 :
  action1 ≠ "dismiss" →
  action2 ≠ "dismiss" →
  dispatch P (NotificationClick {| notification := n; action := action1 |}) w
  = dispatch P (NotificationClick {| notification := n; action := action2 |}) w.
Proof.
  intros Hfirst Hsecond.
  rewrite !click_run by done. cbn [notification].
  by rewrite (focus_or_open_ignores_action P n action1 action2).
Qed.

Lemma click_routing_ignores_action_witness :
  dispatch calm_platform
    (NotificationClick (click (JStr "/sessions/5") "open")) empty_world
  = dispatch calm_platform
      (NotificationClick (click (JStr "/sessions/5") "")) empty_world.
Proof.
  apply (click_routing_ignores_action calm_platform empty_world
           {| notification_tag := "prayer-notification";
              notification_data := JObj {[ "url" := JStr "/sessions/5" ]} |}
           "open" "");
    discriminate.
Defined.

(** ** Activate and install: failures and composition *)

(** Settling the deletions, whatever the platform does with each: the
    buckets named whose deletion is fulfilled are gone, all others remain,
    and the whole is fulfilled exactly when every deletion is. *)
Lemma promise_all_deletions_any P names w :
  ∃ w' r,
    promise_all
      (map (fun name => pending P (CachesDelete name) (delete_bucket name)) names) w
    = (w', r) ∧
    calls (trace w') = calls (trace w) ∧
    buckets w'
    = filter (fun b => ¬ (b ∈ names ∧ fulfils P (CachesDelete b) = true))
             (buckets w) ∧
    ((∃ l, r = Normal l) ↔ ∀ name, name ∈ names → fulfils P (CachesDelete name) = true).
Proof.
  revert w. induction names as [| name names IH]; intros w.
  - exists w, (Normal []). split_and!; [done | done | |].
    + symmetry. induction (buckets w) as [| b bs IHb]; [done |].
      rewrite filter_cons_True; [by rewrite IHb |].
      intros [Hin _]. by apply elem_of_nil in Hin.
    + split; [intros _ ? Hin; by apply elem_of_nil in Hin | by eexists].
  - cbn [map promise_all].
    destruct (pending P (CachesDelete name) (delete_bucket name) w)
      as [w1 r1] eqn:Hfirst.
    destruct (IH w1) as (w' & r & Hrest & Hcalls & Hbuckets & Hresult).
    rewrite Hrest. do 2 eexists. split; [reflexivity |].
    unfold pending in Hfirst. unfold fulfils in *.
    destruct (rejects P (CachesDelete name)) as [e |] eqn:Hrejects.
    + injection Hfirst as <- <-. split_and!.
      * rewrite Hcalls. cbn. rewrite calls_app. cbn. by rewrite app_nil_r.
      * rewrite Hbuckets. cbn. apply list_filter_iff. intros b.
        rewrite elem_of_cons. split.
        -- intros Hkeep [[-> | Hin] Hful]; [by rewrite Hrejects in Hful | tauto].
        -- tauto.
      * split; [by intros [l [=]] |].
        intros Hall. specialize (Hall name). rewrite Hrejects in Hall.
        discriminate Hall. by left.
    + injection Hfirst as <- <-. split_and!.
      * rewrite Hcalls. cbn. rewrite calls_app. cbn. by rewrite app_nil_r.
      * rewrite Hbuckets. cbn. rewrite list_filter_filter.
        apply list_filter_iff. intros b. rewrite elem_of_cons. split.
        -- intros [Hkeep Hne]. tauto.
        -- intros Hkeep. split; [tauto |].
           intros ->. apply Hkeep. split; [by left |]. by rewrite Hrejects.
      * destruct r as [l | e].
        -- split; [| by eexists]. intros _ name' [-> | Hin]%elem_of_cons.
           ++ by rewrite Hrejects.
           ++ apply Hresult; [by eexists | done].
        -- split; [by intros [l [=]] |]. intros Hall.
           destruct (proj2 Hresult) as [l [=]].
           intros name' Hin. apply Hall. by right.
Qed.

(** The activate listener when the bucket names can be listed. *)
Lemma activate_run P w :
  rejects P CachesKeys = None →
  ∃ w' r,
    dispatch P Activate w = (w', Extended r) ∧
    buckets w'
    = filter (fun b => ¬ (b ∈ filter (fun name => name ≠ CACHE_NAME) (buckets w)
                          ∧ fulfils P (CachesDelete b) = true))
             (buckets w) ∧
    (r = Normal tt ↔
     fulfils P ClientsClaim = true ∧
     ∀ name, name ∈ filter (fun name => name ≠ CACHE_NAME) (buckets w) →
             fulfils P (CachesDelete name) = true).
Proof.
  intros Hkeys.
  unfold dispatch, listener, on_activate, bind; cbn.
  unfold void, then_, bind, pending at 1. rewrite Hkeys. cbn.
  match goal with
  | |- context [array_map ?f ?names ?w0] =>
      destruct (array_map_deletions P names w0) as (w1 & Hmap & Hb1 & _);
      match type of Hmap with
      | _ = ?result => change (array_map f names w0 = result) in Hmap
      end
  end.
  rewrite Hmap. unfold ret. cbn.
  destruct (promise_all_deletions_any P
              (filter (fun name => name ≠ CACHE_NAME) (buckets w)) w1)
    as (w2 & r & Hall & _ & Hb2 & Hr2).
  rewrite Hall. unfold pending, fulfils.
  destruct (rejects P ClientsClaim) as [e |]; cbn;
    destruct r as [l | e']; cbn; do 2 eexists;
    (split_and!; [reflexivity | by rewrite Hb2, Hb1 |]).
  - split; [done | by intros [[=] _]].
  - split; [done | by intros [[=] _]].
  - split; [intros _; split; [done | apply Hr2; by eexists] | done].
  - split; [done |]. intros [_ Hdel]. by destruct (proj2 Hr2 Hdel) as [l [=]].
Qed.

(** X11: on activation, once the bucket names are listed, a bucket
    survives exactly when it is the current one or its deletion was
    rejected: a failed deletion does not stop the others.  The promise
    given to [waitUntil] is fulfilled exactly when the claim and every
    deletion are. *)
Theorem activate_survivors P w :
  rejects P CachesKeys = None →
  buckets (dispatch P Activate w).1
  = filter (fun b => b = CACHE_NAME ∨ fulfils P (CachesDelete b) = false)
           (buckets w) ∧
  ((dispatch P Activate w).2 = Extended (Normal tt) ↔
   fulfils P ClientsClaim = true ∧
   ∀ name, name ∈ buckets w → name ≠ CACHE_NAME →
           fulfils P (CachesDelete name) = true).
Proof.
  intros Hkeys.
  destruct (activate_run P w Hkeys) as (w' & r & -> & Hbuckets & Hr). cbn.
  split.
  - rewrite Hbuckets. apply filter_ext_elem. intros b Hb.
    rewrite list_elem_of_filter.
    destruct (decide (b = CACHE_NAME)) as [Hcurrent | Hstale].
    { split; [intros _; by left | intros _ [[Hne _] _]; done]. }
    destruct (fulfils P (CachesDelete b)).
    + split; [intros Hkeep; by destruct Hkeep | intros [? | [=]]; done].
    + split; [intros _; by right | intros _ [_ [=]]].
  - split.
    + intros [= ->]. destruct (proj1 Hr eq_refl) as [Hclaim Hdel].
      split; [done |]. intros name Hin Hne. apply Hdel.
      by apply list_elem_of_filter.
    + intros [Hclaim Hdel]. f_equal. apply Hr. split; [done |].
      intros name [Hne Hin]%list_elem_of_filter. by apply Hdel.
Qed.

Lemma activate_survivors_witness :
  buckets (dispatch sticky_platform Activate three_versions).1
  = ["adullam-prayer-v0"; "adullam-prayer-v1"].
Proof.
  rewrite (proj1 (activate_survivors sticky_platform three_versions eq_refl)).
  reflexivity.
Defined.

(** X12: when the bucket names cannot be listed, activation deletes
    nothing and leaves the buckets as they are; [clients.claim] has been
    called all the same, and the promise given to [waitUntil] is
    rejected. *)
Theorem activate_keys_rejected P w e :
  rejects P CachesKeys = Some e →
  calls (trace (dispatch P Activate w).1)
  = calls (trace w) ++ [CachesKeys; ClientsClaim] ∧
  buckets (dispatch P Activate w).1 = buckets w ∧
  ∃ reason, (dispatch P Activate w).2 = Extended (Throw reason).
Proof.
  intros Hkeys.
  unfold dispatch, listener, on_activate, bind; cbn.
  unfold void, then_, bind, pending. rewrite Hkeys. cbn.
  destruct (rejects P ClientsClaim); cbn;
    (split_and!; [| done | by eexists]);
    rewrite <- !app_assoc, calls_app; reflexivity.
Qed.

Lemma activate_keys_rejected_witness :
  calls (trace (dispatch failing_platform Activate two_versions).1)
  = [CachesKeys; ClientsClaim] ∧
  buckets (dispatch failing_platform Activate two_versions).1
  = ["adullam-prayer-v0"; "adullam-prayer-v1"] ∧
  ∃ reason,
    (dispatch failing_platform Activate two_versions).2 = Extended (Throw reason).
Proof.
  exact (activate_keys_rejected failing_platform two_versions
           (JHost "SecurityError") eq_refl).
Defined.

(** X13: when the bucket cannot be opened, the install listener has
    called [skipWaiting], never calls [cache.addAll], creates no bucket,
    and the rejection is not caught: the promise given to [waitUntil] is
    rejected with the reason of [caches.open]. *)
Theorem install_open_rejected P w e :
  rejects P (CachesOpen CACHE_NAME) = Some e →
  dispatch P Install w =
    (after w [ConsoleLog "🔧 Service Worker installing..." [];
              Invoke SkipWaiting;
              Invoke (CachesOpen CACHE_NAME);
              Settle (CachesOpen CACHE_NAME) false],
     Extended (Throw e)).
Proof.
  intros Hopen.
  unfold dispatch, listener, on_install, then_, catch_, try_catch, bind; cbn.
  unfold pending. rewrite Hopen. by tidy_trace.
Qed.

Lemma install_open_rejected_witness :
  dispatch failing_platform Install empty_world =
    (after empty_world
       [ConsoleLog "🔧 Service Worker installing..." [];
        Invoke SkipWaiting;
        Invoke (CachesOpen CACHE_NAME);
        Settle (CachesOpen CACHE_NAME) false],
     Extended (Throw (JHost "QuotaExceededError"))).
Proof.
  exact (install_open_rejected failing_platform empty_world
           (JHost "QuotaExceededError") eq_refl).
Defined.

(** X14: install followed by activate, on a platform where the cache
    calls succeed, leaves the current bucket and no other, whatever
    buckets there were before. *)
Theorem install_then_activate_leaves_current P w :
  rejects P (CachesOpen CACHE_NAME) = None →
  rejects P CachesKeys = None →
  (∀ name, rejects P (CachesDelete name) = None) →
  let installed := (dispatch P Install w).1 in
  let activated := (dispatch P Activate installed).1 in
  CACHE_NAME ∈ buckets activated ∧
  ∀ name, name ∈ buckets activated → name = CACHE_NAME.
Proof.
  intros Hopen Hkeys Hdelete installed activated.
  assert (Hinstalled : CACHE_NAME ∈ buckets installed).
  { unfold installed. rewrite (install_with_open_bucket P w Hopen). cbn.
    case_bool_decide; [done |]. apply elem_of_app. right. by left. }
  destruct (activate_run P installed Hkeys) as (w' & r & Hrun & Hbuckets & _).
  unfold activated. rewrite Hrun. cbn. rewrite Hbuckets.
  split.
  - apply list_elem_of_filter. split; [| done].
    intros [[Hne _]%list_elem_of_filter _]. done.
  - intros name [Hkeep Hin]%list_elem_of_filter.
    destruct (decide (name = CACHE_NAME)) as [| Hne]; [done |].
    destruct Hkeep. split; [by apply list_elem_of_filter |].
    unfold fulfils. by rewrite Hdelete.
Qed.

Lemma install_then_activate_leaves_current_witness :
  buckets (dispatch calm_platform Activate
             (dispatch calm_platform Install
                {| trace := []; buckets := ["adullam-prayer-v0"] |}).1).1
  = ["adullam-prayer-v1"] ∧
  CACHE_NAME ∈ buckets (dispatch calm_platform Activate
                          (dispatch calm_platform Install
                             {| trace := [];
                                buckets := ["adullam-prayer-v0"] |}).1).1.
Proof.
  split; [reflexivity |].
  exact (proj1 (install_then_activate_leaves_current calm_platform
                  {| trace := []; buckets := ["adullam-prayer-v0"] |}
                  eq_refl eq_refl (fun _ => eq_refl))).
Defined.

(** ** Push: what no payload can change *)

(** X15: whatever the push event carries (nothing, text that does not
    parse, any JSON value, also one with vibrate or actions fields), the
    listener does not throw and shows exactly one notification, with the
    fixed vibration pattern and the two standard actions; the event lives
    until that show operation settles and ends as it does. *)
Theorem push_always_shows_once P w event :
  ∃ title options,
    calls (trace (dispatch P (Push event) w).1)
    = calls (trace w) ++ [ShowNotification title options] ∧
    vibrate options = [200; 100; 200]%Z ∧
    actions options = standard_actions ∧
    (dispatch P (Push event) w).2
    = Extended match rejects P (ShowNotification title options) with
               | Some e => Throw e
               | None => Normal tt
               end.
Proof.
  unfold dispatch, listener, on_push, bind; cbn.
  destruct (push_data event) as [event_data |]; cbn.
  - unfold try_catch, push_json, bind.
    destruct (json event_data) as [payload |]; cbn;
      match goal with
      | |- context [Invoke (ShowNotification ?title ?options)] =>
          exists title, options
      end;
      unfold pending;
      destruct (rejects P (ShowNotification _ _)); cbn;
      (split_and!; [| done | done | done]);
      rewrite <- !app_assoc, calls_app; reflexivity.
  - match goal with
    | |- context [Invoke (ShowNotification ?title ?options)] =>
        exists title, options
    end.
    unfold pending.
    destruct (rejects P (ShowNotification _ _)); cbn;
      (split_and!; [| done | done | done]);
      rewrite <- !app_assoc, calls_app; reflexivity.
Qed.

(** X16: a payload that parses but has none of the seven fields (a JSON
    string, number, array or null, the empty object, an object with other
    keys only) is shown as the default notification. *)
Theorem push_json_without_fields_shows_defaults P w event event_data payload :
  push_data event = Some event_data →
  json event_data = Some payload →
  (∀ props, payload ≠ JObj props) ∨
  (∀ k, k ∈ notification_fields → own_props payload !! k = None) →
  calls (trace (dispatch P (Push event) w).1) =
    calls (trace w) ++
    [ShowNotification (JStr "Prayer Reminder")
       {| body := JStr "Time for your daily prayer session!";
          icon := JStr "/vite.svg";
          badge := JStr "/vite.svg";
          tag := JStr "prayer-notification";
          requireInteraction := JBool false;
          data := JObj {[ "url" := JStr "/";
                          "timestamp" := JNum (Finite (now P) 0) ]};
          vibrate := [200; 100; 200]%Z;
          actions := standard_actions |}].
Proof.
  intros Hdata Hjson Hfields.
  assert (Hdefault : ∀ k, k ∈ notification_fields →
             field (spread (default_notificationData P) payload) k
             = documented_default P k).
  { intros k Hk. rewrite (merged_field P payload k Hk).
    destruct Hfields as [Hshape | Hnone].
    - by apply non_object_overrides_nothing.
    - unfold overridden. by rewrite (Hnone k Hk). }
  clear Hfields.
  unfold dispatch, listener, on_push, bind; cbn.
  rewrite Hdata. unfold try_catch, push_json, bind. rewrite Hjson. cbn.
  rewrite !Hdefault by (unfold notification_fields; set_solver).
  unfold pending.
  destruct (rejects P _); cbn;
    rewrite <- !app_assoc, calls_app; reflexivity.
Qed.

Lemma push_json_without_fields_shows_defaults_witness :
  calls (trace (dispatch calm_platform
                  (Push (json_push "hello" (JStr "hello"))) empty_world).1)
  = calls (trace (dispatch calm_platform
                    (Push (json_push "{}" (JObj ∅))) empty_world).1) ∧
  calls (trace (dispatch calm_platform
                  (Push (json_push "{}" (JObj ∅))) empty_world).1)
  = [ShowNotification (JStr "Prayer Reminder")
       {| body := JStr "Time for your daily prayer session!";
          icon := JStr "/vite.svg";
          badge := JStr "/vite.svg";
          tag := JStr "prayer-notification";
          requireInteraction := JBool false;
          data := JObj {[ "url" := JStr "/";
                          "timestamp" := JNum (Finite 1700000000000 0) ]};
          vibrate := [200; 100; 200]%Z;
          actions := standard_actions |}].
Proof.
  rewrite (push_json_without_fields_shows_defaults calm_platform empty_world
             (json_push "hello" (JStr "hello")) _ _ eq_refl eq_refl)
    by (left; intros props; discriminate).
  rewrite (push_json_without_fields_shows_defaults calm_platform empty_world
             (json_push "{}" (JObj ∅)) _ _ eq_refl eq_refl)
    by (right; intros k _; apply lookup_empty).
  split; reflexivity.
Defined.

(** ** Background sync: what it never does *)

(** X17: a sync or periodicsync event, with any tag and on any platform,
    makes no call on the platform and leaves the cache storage alone: the
    background check only writes to the console. *)
Theorem sync_makes_no_call P w event_tag :
  calls (trace (dispatch P (Sync event_tag) w).1) = calls (trace w) ∧
  buckets (dispatch P (Sync event_tag) w).1 = buckets w ∧
  calls (trace (dispatch P (PeriodicSync event_tag) w).1) = calls (trace w) ∧
  buckets (dispatch P (PeriodicSync event_tag) w).1 = buckets w.
Proof.
  unfold dispatch, listener, on_sync, on_periodicsync, bind; cbn.
  destruct (String.eqb event_tag "check-notifications"),
           (String.eqb event_tag "check-prayer-notifications"),
           (has_periodicsync P); cbn;
    rewrite <- ?app_assoc, ?calls_app; cbn; rewrite ?app_nil_r; done.
Qed.

(** ** The cache storage belongs to install and activate *)

(** The promise of a call that changes nothing keeps the buckets. *)
Lemma pending_ret_buckets {A} P c (a : A) w :
  buckets (pending P c (ret a) w).1 = buckets w.
Proof. unfold pending. by destruct (rejects P c). Qed.

Lemma focus_or_open_keeps_buckets P event clientList w :
  buckets (focus_or_open P event clientList w).1 = buckets w ∧
  ∀ continuation,
    (focus_or_open P event clientList w).2 = Normal continuation →
    ∀ w', buckets (continuation w').1 = buckets w'.
Proof.
  induction clientList as [| client rest IH]; cbn [focus_or_open].
  - destruct (has_openWindow P); cbn; (split; [done |]).
    + intros continuation [= <-] w'. apply pending_ret_buckets.
    + by intros continuation [= <-] w'.
  - destruct (includes (url client) (origin P) && has_focus client); [| exact IH].
    cbn. split; [done |]. intros continuation [= <-] w'.
    unfold then_, bind, pending at 1.
    destruct (rejects P (ClientFocus client)); cbn; [done |].
    destruct (truthy _); cbn; [| done].
    unfold void, bind, pending.
    by destruct (rejects P (ClientNavigate client _)).
Qed.

(** X18: only install and activate touch the cache storage: every other
    event (push, notification click or close, sync, periodicsync, message,
    error, unhandled rejection) leaves the buckets as they were, on every
    platform and whatever the event carries. *)
Theorem only_lifecycle_changes_buckets P w e :
  e ≠ Install →
  e ≠ Activate →
  buckets (dispatch P e w).1 = buckets w.
Proof.
  intros Hinstall Hactivate.
  destruct e as [| | event | event | event | event_tag | event_tag | event
                 | error | reason]; try done.
  - unfold dispatch, listener, on_push, bind; cbn.
    destruct (push_data event) as [event_data |]; cbn.
    + unfold try_catch, push_json, bind.
      destruct (json event_data); cbn; unfold pending;
        by destruct (rejects P (ShowNotification _ _)).
    + unfold pending. by destruct (rejects P (ShowNotification _ _)).
  - destruct (String.eqb (action event) "dismiss") eqn:Haction.
    + unfold dispatch, listener, on_notificationclick, bind; cbn.
      by rewrite Haction.
    + apply String.eqb_neq in Haction.
      rewrite (click_run P w event Haction). cbn zeta.
      destruct (rejects P (ClientsMatchAll "window" true)); [done |].
      match goal with
      | |- context [focus_or_open P event (windows P) ?w0] =>
          destruct (focus_or_open_keeps_buckets P event (windows P) w0)
            as [Hsync Hasync];
          destruct (focus_or_open P event (windows P) w0)
            as [w2 [continuation | err]]
      end; [| exact Hsync].
      cbn in Hsync. specialize (Hasync continuation eq_refl w2).
      destruct (continuation w2) as [w3 settled]. cbn in *. congruence.
  - unfold dispatch, listener, on_sync, bind; cbn.
    by destruct (String.eqb event_tag "check-notifications").
  - unfold dispatch, listener. destruct (has_periodicsync P); [| done].
    unfold on_periodicsync, bind; cbn.
    by destruct (String.eqb event_tag "check-prayer-notifications").
  - unfold dispatch, listener, on_message, bind; cbn.
    destruct (message_is event "SHOW_NOTIFICATION"),
             (message_is event "SKIP_WAITING"),
             (message_is event "CLIENTS_CLAIM"); cbn; try done;
      unfold require_object_coercible;
      destruct (nullish (member (message_data event) "payload")); cbn; try done;
      destruct (ports event); cbn; unfold pending;
      by destruct (rejects P (ShowNotification _ _)).
Qed.

Lemma only_lifecycle_changes_buckets_witness :
  buckets (dispatch calm_platform
             (NotificationClick (click (JStr "/sessions/5") "open"))
             two_versions).1
  = ["adullam-prayer-v0"; "adullam-prayer-v1"].
Proof.
  rewrite (only_lifecycle_changes_buckets calm_platform two_versions
             (NotificationClick (click (JStr "/sessions/5") "open")));
    [reflexivity | discriminate | discriminate].
Defined.
